(** * QX matrix analyzer: the resolution engine of [app.py]

    A shallow embedding of the class [QXMatrixAnalyzer] (src/app.py) and the
    properties of its resolution engine: locating a defect column, resolving
    sub-assemblies, components and parameters through marker cells, and the
    colour filter of [get_filtered_hierarchy].

    Conventions of the embedding:
    - a Python [str] is the list of its Unicode code points;
    - a cell of the pandas grid is [None] when [pd.notna] is false of it and
      [Some s] otherwise, [s] being what [str(cell)] returns;
    - [DataFrame.iloc] raises, so every function that indexes the grid
      returns a [result];
    - [for] loops are folds over their range, threading the variables the
      loop body updates. *)

From Stdlib Require Import String Ascii.
From Stdlib Require Import List Sorted NArith ZArith Arith Bool Lia.
Import ListNotations.

Set Implicit Arguments.

(** ** Python strings *)

Module PyStr.

Definition char := N.
Definition str := list char.

(** [str.isspace] on one code point: the characters [str.strip()] removes. *)
Definition isspace (c : char) : bool :=
  (((9 <=? c) && (c <=? 13)) || ((28 <=? c) && (c <=? 32))
   || (c =? 133) || (c =? 160) || (c =? 5760)
   || ((8192 <=? c) && (c <=? 8202))
   || (c =? 8232) || (c =? 8233) || (c =? 8239) || (c =? 8287)
   || (c =? 12288))%N.

Fixpoint lstrip (s : str) : str :=
  match s with
  | [] => []
  | c :: t => if isspace c then lstrip t else s
  end.

Definition rstrip (s : str) : str := rev (lstrip (rev s)).

(** [s.strip()] *)
Definition strip (s : str) : str := rstrip (lstrip s).

Fixpoint eqb (s t : str) : bool :=
  match s, t with
  | [], [] => true
  | c :: s', d :: t' => (c =? d)%N && eqb s' t'
  | _, _ => false
  end.

(** [x in l] for a list (or a set) of strings *)
Definition mem (x : str) (l : list str) : bool := existsb (eqb x) l.

(** Truth value of a string, [if name:] *)
Definition truthy (s : str) : bool :=
  match s with [] => false | _ :: _ => true end.

(** Literals: every byte of an ASCII literal is its code point. *)
Definition of_string (s : string) : str :=
  map N_of_ascii (list_ascii_of_string s).

(** [pat in text] *)
Fixpoint starts_with (pat text : str) : bool :=
  match pat, text with
  | [], _ => true
  | c :: p, d :: t => (c =? d)%N && starts_with p t
  | _ :: _, [] => false
  end.

Fixpoint contains (pat text : str) : bool :=
  starts_with pat text
  || match text with
     | [] => false
     | _ :: t => contains pat t
     end.

End PyStr.

Import PyStr.

Notation "'u' s" := (of_string s%string)
  (at level 1, s at level 0, only parsing).

(** ** Exceptions *)

Inductive exn : Type :=
| IndexError   (* a positional indexer out of bounds *)
| ReError.     (* re.error: the pattern does not compile *)

Inductive result (A : Type) : Type :=
| Ok (a : A)
| Raise (e : exn).

Arguments Ok {A} a.
Arguments Raise {A} e.

Definition bind {A B : Type} (m : result A) (k : A -> result B) : result B :=
  match m with
  | Ok a => k a
  | Raise e => Raise e
  end.

Notation "x <- m ;; k" := (bind m (fun x => k))
  (at level 61, m at next level, right associativity).
Notation "' p <- m ;; k" := (bind m (fun p => k))
  (at level 61, p pattern, m at next level, right associativity).

(** [for x in xs: s = body(s, x)], the first exception ending the loop. *)
Fixpoint for_each {A S : Type} (xs : list A) (body : S -> A -> result S)
  (s : S) : result S :=
  match xs with
  | [] => Ok s
  | x :: rest => s' <- body s x ;; for_each rest body s'
  end.

(** [range(lo, hi)] *)
Definition range (lo hi : nat) : list nat := seq lo (hi - lo).

(** ** The grid: a pandas DataFrame read with [header=None] *)

Definition cell := option str.

Definition notna (c : cell) : bool :=
  match c with Some _ => true | None => false end.

(** [str(cell)]; the missing value, which [read_excel] gives for an empty
    cell, prints as [nan]. *)
Definition py_str (c : cell) : str :=
  match c with Some s => s | None => u"nan" end.

(** A frame has [len] rows of [n_columns] cells each.  [values] lists the
    rows; a row shorter than [n_columns] is padded with missing values and
    what lies past [n_columns] is not part of the frame, so that every
    value of the record is a rectangular frame. *)
Record DataFrame : Type := {
  values : list (list cell);
  n_columns : nat                (* len(data.columns) *)
}.

Definition len (data : DataFrame) : nat := length (values data).

(** The cell at a position inside the frame. *)
Definition cell_in (data : DataFrame) (r c : nat) : cell :=
  nth c (nth r (values data) []) None.

(** [data.iloc[r, c]] *)
Definition iloc (data : DataFrame) (r c : nat) : result cell :=
  if (r <? len data) && (c <? n_columns data)
  then Ok (cell_in data r c)
  else Raise IndexError.

(** [data.iloc[r]]: one row as a Series indexed by column. *)
Definition iloc_row (data : DataFrame) (r : nat) : list cell :=
  map (cell_in data r) (range 0 (n_columns data)).

(** The grid of the specification: a position outside the frame is an
    absent cell. *)
Definition cell_at (data : DataFrame) (r c : nat) : cell :=
  if (r <? len data) && (c <? n_columns data) then cell_in data r c else None.

(** ** Markers *)

Definition e_circ : str := [234%N].   (* U+00EA *)
Definition e_grave : str := [232%N].  (* U+00E8 *)
Definition c_cedil : str := [231%N].  (* U+00E7 *)
Definition ord_fem : str := [170%N].  (* U+00AA *)

Definition markers : list str := [e_circ; e_grave; c_cedil; ord_fem].
Definition target_marker : str := c_cedil.
Definition param_markers : list str := [e_grave; e_circ].

(** ** The xlrd workbook, read with [formatting_info=True]

    [_get_xlrd_objects] yields [(None, None)] when xlrd cannot open the
    file (every [.xlsx] file), which is [xlrd_book = None] here.  The calls
    of xlrd that can raise return [None] when they do. *)

Inductive xl_cell : Type :=
| XL_CELL_TEXT (value : str)
| XL_CELL_OTHER.

Record Book : Type := {
  sheet_cell : nat -> nat -> option xl_cell;   (* sheet.cell(r, c) *)
  cell_xf_index : nat -> nat -> option nat;    (* sheet.cell_xf_index(r, c) *)
  xf_list : list Z   (* book.xf_list[i].background.pattern_colour_index *)
}.

(** ** Results *)

Record Parametre : Type := {
  param_name : str;              (* 'name' *)
  param_value : str;             (* 'value' *)
  components : list str          (* 'components' *)
}.

Record Hierarchy : Type := {
  defect_name : str;
  defect_column : nat;
  sous_ensembles : list str;
  composants : list str;
  parametres : list Parametre
}.

(** What [analyze_defect] returns: the dictionary with the key ['error'],
    or the full one. *)
Inductive Analysis : Type :=
| AnalysisError (error : str) (name : str)
| AnalysisFound (h : Hierarchy).

Record FilteredHierarchy : Type := {
  fh_defect_name : str;
  fh_defect_column : option nat;
  fh_sous_ensembles : list str;
  bonnes_composants : list str;
  fh_parametres : list Parametre
}.

(** Order-preserving deduplication, as both [analyze_defect] and
    [get_filtered_hierarchy] write it: [seen] is a set, used for membership
    only, and is kept as the list of the elements added to it. *)
Definition dedup_step (st : list str * list str) (comp : str)
  : list str * list str :=
  let '(seen, uniques) := st in
  if mem comp seen then (seen, uniques)
  else (seen ++ [comp], uniques ++ [comp]).

Definition dedup (l : list str) : list str :=
  snd (fold_left dedup_step l ([], [])).

(** [color_cache], a dict from sub-assembly name to colour index. *)
Definition cache_get (k : str) (cache : list (str * option Z))
  : option (option Z) :=
  match find (fun kv => eqb k (fst kv)) cache with
  | Some kv => Some (snd kv)
  | None => None
  end.

(** [comp_color_idx == color_idx], on [None] or an int. *)
Definition color_eqb (a b : option Z) : bool :=
  match a, b with
  | None, None => true
  | Some x, Some y => (x =? y)%Z
  | _, _ => false
  end.

(** ** The analyzer *)

Section Analyzer.

(** Two functions of the Python runtime are parameters of the model:
    [str.lower], and [re.compile] as pandas' [Series.str.contains] calls
    it ([regex=True] is its default): [None] when the pattern does not
    compile, otherwise the test [pattern.search(text) is not None]. *)
Variable lower : str -> str.
Variable re_compile : str -> option (str -> bool).

(** The fields of [self].  [data] is the decoded grid, which [main]
    stores before it calls any method. *)
Variable data : DataFrame.
Variable xlrd_book : option Book.

(** The row lookup of [get_cell_color], inside its [try]: [None] when
    [sheet.cell] raises. *)
Fixpoint xl_find_row (b : Book) (row_name : str) (rows : list nat)
  : option (option nat) :=
  match rows with
  | [] => Some None
  | r :: rest =>
      match sheet_cell b r 75 with
      | None => None
      | Some (XL_CELL_TEXT v) =>
          if eqb (strip v) row_name then Some (Some r)
          else xl_find_row b row_name rest
      | Some XL_CELL_OTHER => xl_find_row b row_name rest
      end
  end.

(** [get_cell_color(row_name, col_idx)[0]]: the colour index, the only
    component its callers read.  Every exception is caught and gives
    [None] as the index. *)
Definition get_cell_color (row_name : str) (col_idx : nat) : option Z :=
  match xlrd_book with
  | None => None
  | Some b =>
      match xl_find_row b row_name (range 3 15) with
      | None => None
      | Some None => None
      | Some (Some row_idx) =>
          match cell_xf_index b row_idx col_idx with
          | None => None
          | Some xf_index => nth_error (xf_list b) xf_index
          end
      end
  end.

Definition get_component_color (row_name : str) (col_idx : nat)
  : option Z :=
  get_cell_color row_name col_idx.

Definition find_defect_column (name : str) : result (option nat) :=
  let defect_row_idx := 15 in
  if len data <=? defect_row_idx then Ok None
  else
    let defect_row := iloc_row data defect_row_idx in
    match re_compile (lower name) with
    | None => Raise ReError
    | Some search =>
        let mask :=
          map (fun c => notna c && search (lower (py_str c))) defect_row in
        let matches :=
          filter snd (combine (range 0 (n_columns data)) mask) in
        Ok (match matches with
            | [] => None
            | (col, _) :: _ => Some col
            end)
    end.

Definition list_all_defects : list (nat * str) :=
  let defect_row_idx := 15 in
  if len data <=? defect_row_idx then []
  else
    let defect_row := iloc_row data defect_row_idx in
    let valid_defects :=
      filter (fun cv => notna (snd cv)
                        && negb (eqb (strip (py_str (snd cv))) []))
             (combine (range 0 (n_columns data)) defect_row) in
    let valid_defects := filter (fun cv => 78 <=? fst cv) valid_defects in
    map (fun cv => (fst cv, strip (py_str (snd cv)))) valid_defects.

(** [data.iloc[r, c] if c < len(data.columns) else None] *)
Definition iloc_if_col (r c : nat) : result cell :=
  if c <? n_columns data then iloc data r c else Ok None.

(** The body of the marker loop of [get_sous_ensembles]. *)
Definition sous_ensembles_body (defect_col : nat)
  (sous_ensembles : list str) (row_idx : nat) : result (list str) :=
  if (row_idx <? len data) && (defect_col <? n_columns data) then
    c <- iloc data row_idx defect_col ;;
    if notna c && eqb (strip (py_str c)) target_marker then
      sub_name <- iloc_if_col row_idx 75 ;;
      if notna sub_name then
        let name := strip (py_str sub_name) in
        if truthy name && negb (mem name sous_ensembles)
        then Ok (sous_ensembles ++ [name])
        else Ok sous_ensembles
      else Ok sous_ensembles
    else Ok sous_ensembles
  else Ok sous_ensembles.

Definition sous_ensembles_loop (defect_col : nat) : result (list str) :=
  for_each (range 3 15) (sous_ensembles_body defect_col) [].

Definition get_sous_ensembles (defect_col : nat) : result (list str) :=
  sous_ensembles <- sous_ensembles_loop defect_col ;;
  match sous_ensembles with
  | [] =>
      (* Fallback: if nothing found, try (13, 75) *)
      sub_name <- iloc_if_col 13 75 ;;
      if notna sub_name then Ok [strip (py_str sub_name)] else Ok []
  | _ :: _ => Ok sous_ensembles
  end.

(** The loop that finds the row of a sub-assembly, with its [break];
    [get_composants] and [get_parametres] both start with it. *)
Fixpoint find_sub_row (sous_ensemble_name : str) (rows : list nat)
  : result (option nat) :=
  match rows with
  | [] => Ok None
  | row_idx :: rest =>
      sub_name <- iloc_if_col row_idx 75 ;;
      if notna sub_name && eqb (strip (py_str sub_name)) sous_ensemble_name
      then Ok (Some row_idx)
      else find_sub_row sous_ensemble_name rest
  end.

Definition composants_body (sub_row_idx : nat) (comps : list str)
  (col : nat) : result (list str) :=
  if col <? n_columns data then
    c <- iloc data sub_row_idx col ;;
    let marker := strip (py_str c) in
    if mem marker markers then
      component <- iloc_if_col 15 col ;;
      if notna component then
        let comp_name := strip (py_str component) in
        if negb (mem comp_name markers) && negb (eqb comp_name [])
        then Ok (comps ++ [comp_name])
        else Ok comps
      else Ok comps
    else Ok comps
  else Ok comps.

Definition get_composants (sous_ensemble_name : str) : result (list str) :=
  sub_row_idx <- find_sub_row sous_ensemble_name (range 3 14) ;;
  match sub_row_idx with
  | None => Ok []
  | Some r => for_each (range 0 74) (composants_body r) []
  end.

Definition component_cols_body (sub_row_idx : nat) (cols : list nat)
  (col : nat) : result (list nat) :=
  if col <? n_columns data then
    c <- iloc data sub_row_idx col ;;
    let marker := strip (py_str c) in
    if mem marker markers then Ok (cols ++ [col]) else Ok cols
  else Ok cols.

Definition linked_body (row_idx : nat) (linked : list str) (col : nat)
  : result (list str) :=
  if col <? n_columns data then
    c <- iloc data row_idx col ;;
    if notna c && mem (strip (py_str c)) param_markers then
      comp_name <- iloc_if_col 15 col ;;
      if notna comp_name then
        let comp_name_str := strip (py_str comp_name) in
        if negb (mem comp_name_str markers) && negb (eqb comp_name_str [])
        then Ok (linked ++ [comp_name_str])
        else Ok linked
      else Ok linked
    else Ok linked
  else Ok linked.

Definition parametres_body (component_cols : list nat)
  (parameters : list Parametre) (row_idx : nat)
  : result (list Parametre) :=
  name <- iloc_if_col row_idx 75 ;;
  value <- iloc_if_col row_idx 76 ;;
  if notna name then
    let param_name_str := strip (py_str name) in
    let param_value_str :=
      if notna value then strip (py_str value) else [] in
    linked_components <-
      for_each component_cols (linked_body row_idx) [] ;;
    if match linked_components with [] => false | _ :: _ => true end
       && negb (mem param_name_str markers)
       && negb (eqb param_name_str [])
    then Ok (parameters ++
             [ {| param_name := param_name_str;
                  param_value := param_value_str;
                  components := linked_components |} ])
    else Ok parameters
  else Ok parameters.

Definition get_parametres (sous_ensemble_name : str)
  : result (list Parametre) :=
  if negb (truthy sous_ensemble_name) then Ok []
  else
    sub_row_idx <- find_sub_row sous_ensemble_name (range 3 14) ;;
    match sub_row_idx with
    | None => Ok []
    | Some r =>
        component_cols <-
          for_each (range 0 74) (component_cols_body r) [] ;;
        for_each (range 17 (len data)) (parametres_body component_cols) []
    end.

(** The message of the error-tagged result. *)
Definition introuvable (name : str) : str :=
  u"D" ++ [233%N] ++ u"faut " ++ [34%N] ++ name ++ [34%N]
  ++ u" introuvable dans la matrice".

Definition analyze_body (st : list str * list Parametre) (se : str)
  : result (list str * list Parametre) :=
  let '(comps, params) := st in
  cs <- get_composants se ;;
  ps <- get_parametres se ;;
  Ok (comps ++ cs, params ++ ps).

Definition analyze_defect (name : str) : result Analysis :=
  defect_col <- find_defect_column name ;;
  match defect_col with
  | None => Ok (AnalysisError (introuvable name) name)
  | Some col =>
      ses <- get_sous_ensembles col ;;
      '(comps, params) <- for_each ses analyze_body ([], []) ;;
      Ok (AnalysisFound
            {| defect_name := name;
               defect_column := col;
               sous_ensembles := ses;
               composants := dedup comps;
               parametres := params |})
  end.

(** The columns of row 15 that carry the name of a component. *)
Definition comp_cols_body (comp_name : str) (comp_cols : list nat)
  (col : nat) : result (list nat) :=
  cell_val <- iloc data 15 col ;;
  if notna cell_val && eqb (strip (py_str cell_val)) comp_name
  then Ok (comp_cols ++ [col])
  else Ok comp_cols.

Definition bonnes_comp_body (se : str) (color_idx : option Z)
  (bonnes : list str) (comp : str) : result (list str) :=
  let comp_name := strip comp in
  comp_cols <- for_each (range 0 74) (comp_cols_body comp_name) [] ;;
  Ok (fold_left
        (fun acc comp_col =>
           if color_eqb (get_component_color se comp_col) color_idx
           then acc ++ [comp] else acc)
        comp_cols bonnes).

Definition bonnes_se_body (defect_col : nat) (comps : list str)
  (st : list (str * option Z) * list str) (se : str)
  : result (list (str * option Z) * list str) :=
  let '(color_cache, bonnes) := st in
  let '(color_cache, color_idx) :=
    match cache_get se color_cache with
    | Some idx => (color_cache, idx)
    | None =>
        let idx := get_cell_color se defect_col in
        ((se, idx) :: color_cache, idx)
    end in
  bonnes <- for_each comps (bonnes_comp_body se color_idx) bonnes ;;
  Ok (color_cache, bonnes).

Definition filter_parametres (bons_comp_set : list str)
  (params : list Parametre) : list Parametre :=
  fold_left
    (fun parametres_filtres param =>
       let linked_in_good :=
         filter (fun c => mem c bons_comp_set) (components param) in
       match linked_in_good with
       | [] => parametres_filtres
       | _ :: _ =>
           parametres_filtres ++
           [ {| param_name := param_name param;
                param_value := param_value param;
                components := linked_in_good |} ]
       end)
    params [].

Definition get_filtered_hierarchy (name : str)
  : result FilteredHierarchy :=
  res <- analyze_defect name ;;
  match res with
  | AnalysisError _ _ =>
      Ok {| fh_defect_name := name;
            fh_defect_column := None;
            fh_sous_ensembles := [];
            bonnes_composants := [];
            fh_parametres := [] |}
  | AnalysisFound h =>
      let ses := sous_ensembles h in
      let defect_col := defect_column h in
      '(_, bonnes) <-
        match ses with
        | [] => Ok ([], [])
        | _ :: _ =>
            for_each ses (bonnes_se_body defect_col (composants h))
                     ([], [])
        end ;;
      let bonnes_composants_uniques := dedup bonnes in
      Ok {| fh_defect_name := name;
            fh_defect_column := Some defect_col;
            fh_sous_ensembles := ses;
            bonnes_composants := bonnes_composants_uniques;
            fh_parametres :=
              filter_parametres bonnes_composants_uniques (parametres h) |}
  end.

End Analyzer.

(** ** The resolution rules, stated over the grid of the specification

    The same lookups as comprehensions over [cell_at], where a position
    outside the frame is an absent cell.  The theorems below relate the
    loops of the analyzer to them. *)

Definition opt_list {A : Type} (o : option A) : list A :=
  match o with Some a => [a] | None => [] end.

(** The cell is present and its trimmed text is one of [ms]. *)
Definition marked (data : DataFrame) (ms : list str) (r c : nat) : bool :=
  match cell_at data r c with
  | Some s => mem (strip s) ms
  | None => false
  end.

(** The trimmed label of a row, when it is present and not empty. *)
Definition label (data : DataFrame) (r : nat) : option str :=
  match cell_at data r 75 with
  | Some s => if truthy (strip s) then Some (strip s) else None
  | None => None
  end.

(** The labels of the rows 3-14 marked for a defect column, in row order. *)
Definition marked_labels (data : DataFrame) (defect_col : nat) : list str :=
  flat_map
    (fun r => if marked data [c_cedil] r defect_col
              then opt_list (label data r) else [])
    (range 3 15).

(** The elements of a list at their first occurrence: the element at
    index [i] is kept when it does not occur before [i]. *)
Definition first_occurrences (l : list str) : list str :=
  flat_map
    (fun i => match nth_error l i with
              | Some x => if mem x (firstn i l) then [] else [x]
              | None => []
              end)
    (seq 0 (length l)).

(** The label cell of row [r] is present and its trimmed text is [name]. *)
Definition label_is (data : DataFrame) (name : str) (r : nat) : bool :=
  match cell_at data r 75 with
  | Some s => eqb (strip s) name
  | None => false
  end.

(** The first of the rows 3-13 whose trimmed label is the name. *)
Definition sub_assembly_row (data : DataFrame) (name : str) : option nat :=
  find (label_is data name) (range 3 14).

(** The display name of a component column: the trimmed cell of row 15,
    when it is neither empty nor a marker string. *)
Definition component_name (data : DataFrame) (col : nat) : option str :=
  match cell_at data 15 col with
  | Some s =>
      if negb (mem (strip s) markers) && truthy (strip s)
      then Some (strip s) else None
  | None => None
  end.

Definition spec_composants (data : DataFrame) (name : str) : list str :=
  match sub_assembly_row data name with
  | None => []
  | Some r =>
      flat_map
        (fun col => if marked data markers r col
                    then opt_list (component_name data col) else [])
        (range 0 74)
  end.

(** The component columns of the sub-assembly of row [r]: the columns
    0-73 where the row holds one of the four markers. *)
Definition marker_columns (data : DataFrame) (r : nat) : list nat :=
  flat_map (fun col => if marked data markers r col then [col] else [])
           (range 0 74).

(** The components linked to a parameter row, for the sub-assembly of
    row [r]. *)
Definition spec_linked (data : DataFrame) (r row : nat) : list str :=
  flat_map
    (fun col => if marked data markers r col
                   && marked data param_markers row col
                then opt_list (component_name data col) else [])
    (range 0 74).

(** What one parameter row contributes: at most one entry. *)
Definition spec_row_parametre (data : DataFrame) (r row : nat)
  : option Parametre :=
  match cell_at data row 75 with
  | None => None
  | Some n =>
      match spec_linked data r row with
      | [] => None
      | linked =>
          if truthy (strip n) && negb (mem (strip n) markers)
          then Some {| param_name := strip n;
                       param_value :=
                         match cell_at data row 76 with
                         | Some v => strip v
                         | None => []
                         end;
                       components := linked |}
          else None
      end
  end.

Definition spec_parametres (data : DataFrame) (name : str)
  : list Parametre :=
  if truthy name then
    match sub_assembly_row data name with
    | None => []
    | Some r =>
        flat_map (fun row => opt_list (spec_row_parametre data r row))
                 (range 17 (len data))
    end
  else [].

(** The parameters kept by the filter, as the specification words it:
    those whose linked components meet the validated ones, each with its
    linked components cut down to the validated ones. *)
Definition meets (validated : list str) (p : Parametre) : bool :=
  existsb (fun c => mem c validated) (components p).

Definition restrict (validated : list str) (p : Parametre) : Parametre :=
  {| param_name := param_name p;
     param_value := param_value p;
     components := filter (fun c => mem c validated) (components p) |}.

(** ** An instance of the runtime, and grids given by their cells

    [lower_latin1] is [str.lower] on Latin-1 text.  [re_compile_plain]
    reads the pattern as plain text: on a pattern of letters, digits and
    spaces that is what [re.compile] gives, a search for the pattern as a
    substring.  The examples use it on such patterns only. *)

Definition lower_char (c : char) : char :=
  (if ((65 <=? c) && (c <=? 90))
      || ((192 <=? c) && (c <=? 222) && negb (c =? 215))
   then c + 32 else c)%N.

Definition lower_latin1 (s : str) : str := map lower_char s.

Definition re_compile_plain (pat : str) : option (str -> bool) :=
  Some (contains pat).

(** The frame of [n_rows] by [n_cols] cells whose present cells are
    [entries], each a (row, column, text). *)
Definition grid_of (n_rows n_cols : nat) (entries : list (nat * nat * str))
  : DataFrame :=
  {| values :=
       map (fun r =>
              map (fun c =>
                     match find (fun e => (fst (fst e) =? r)
                                          && (snd (fst e) =? c)) entries with
                     | Some e => Some (snd e)
                     | None => None
                     end)
                  (seq 0 n_cols))
           (seq 0 n_rows);
     n_columns := n_cols |}.

(** What a deduplicating loop appends while it reads [l], when [seen]
    holds the elements met so far. *)
Fixpoint uniq_from (seen l : list str) : list str :=
  match l with
  | [] => []
  | x :: t =>
      if mem x seen then uniq_from seen t
      else x :: uniq_from (seen ++ [x]) t
  end.

(** [first_occurrences] with the elements of [pre] counted as met. *)
Definition first_occ_from (pre l : list str) : list str :=
  flat_map
    (fun i => match nth_error l i with
              | Some x => if mem x (pre ++ firstn i l) then [] else [x]
              | None => []
              end)
    (seq 0 (length l)).

(** The sub-assemblies of a defect column on a grid that has row 13: the
    marked labels at their first occurrence, or else the label cell of
    row 13 when it is present. *)
Definition resolved_sous_ensembles (data : DataFrame) (defect_col : nat)
  : list str :=
  match first_occurrences (marked_labels data defect_col) with
  | [] => opt_list (option_map strip (cell_at data 13 75))
  | l => l
  end.

(** The columns 0-73 whose cell of row 15 is present with the trimmed
    text [comp_name]. *)
Definition name_columns (data : DataFrame) (comp_name : str) : list nat :=
  flat_map
    (fun col => match cell_at data 15 col with
                | Some s => if eqb (strip s) comp_name then [col] else []
                | None => []
                end)
    (range 0 74).

(** What the colour filter appends for one sub-assembly and one
    component: the component once for each of its columns whose colour is
    the reference colour [color_idx]. *)
Definition validated_for (book : option Book) (data : DataFrame)
  (se : str) (color_idx : option Z) (comp : str) : list str :=
  flat_map
    (fun col => if color_eqb (get_component_color book se col) color_idx
                then [comp] else [])
    (name_columns data (strip comp)).

(** The validated components of a defect column, given its
    sub-assemblies and its components. *)
Definition validated (book : option Book) (data : DataFrame)
  (defect_col : nat) (ses comps : list str) : list str :=
  dedup
    (flat_map
       (fun se =>
          flat_map
            (validated_for book data se (get_cell_color book se defect_col))
            comps)
       ses).

(** ** Grids of the examples

    Each grid is as wide and as long as its last present cells make it. *)

(** A defect "Crack" in column 80, the sub-assembly "Housing" in row 5
    with the component "Bolt" in column 10, and the parameter "Torque" in
    row 20. *)
Definition grid_housing : DataFrame :=
  grid_of 21 81
    [ (15, 80, u"Crack"); (5, 80, c_cedil); (5, 75, u"Housing");
      (5, 10, e_circ); (15, 10, u"Bolt");
      (20, 75, u"Torque"); (20, 76, u"Retighten to 10Nm");
      (20, 10, e_grave) ].

(** As [grid_housing], with a second sub-assembly "Frame" in row 6 that
    holds the same component column. *)
Definition grid_two_sub_assemblies : DataFrame :=
  grid_of 21 81
    [ (15, 80, u"Crack"); (5, 80, c_cedil); (5, 75, u"Housing");
      (6, 80, c_cedil); (6, 75, u"Frame");
      (5, 10, e_circ); (6, 10, e_grave); (15, 10, u"Bolt");
      (20, 75, u"Torque"); (20, 76, u"Retighten to 10Nm");
      (20, 10, e_grave) ].

(** No marker in the defect column 80, and the label "Frame" in row 13. *)
Definition grid_fallback : DataFrame :=
  grid_of 16 81 [ (15, 80, u"Crack"); (13, 75, u"Frame") ].

(** A marker in row 5 of the defect column 80 whose label cell is absent,
    and the label "Frame" in row 13. *)
Definition grid_marker_without_label : DataFrame :=
  grid_of 16 81
    [ (15, 80, u"Crack"); (5, 80, c_cedil); (13, 75, u"Frame") ].

(** The sub-assembly and the component of [grid_housing], the parameter
    row 20 being named by a marker string. *)
Definition grid_marker_named_parametre : DataFrame :=
  grid_of 21 76
    [ (5, 75, u"Housing"); (5, 10, e_circ); (15, 10, u"Bolt");
      (20, 75, ord_fem); (20, 10, e_grave) ].

(** Ten rows of 76 columns, with no sub-assembly. *)
Definition grid_ten_rows : DataFrame :=
  grid_of 10 76 [ (0, 0, u"QX"); (9, 75, u"Notes") ].

(** Fourteen rows: the sub-assembly "Housing" with a marked column, a
    label in row 13, and no row 15. *)
Definition grid_fourteen_rows : DataFrame :=
  grid_of 14 76
    [ (5, 75, u"Housing"); (5, 10, e_circ); (13, 75, u"Frame") ].

(** The hierarchy that [get_filtered_hierarchy] returns for a defect that
    is not found. *)
Definition empty_hierarchy (name : str) : FilteredHierarchy :=
  {| fh_defect_name := name;
     fh_defect_column := None;
     fh_sous_ensembles := [];
     bonnes_composants := [];
     fh_parametres := [] |}.

(** ** The keyword search of [main] *)

(** The matches of the search tab, for a keyword that is not empty:
    [[(col, d) for col, d in defects if keyword.lower() in d.lower()]],
    [defects] being [list_all_defects()]. *)
Definition keyword_matches (lower : str -> str) (data : DataFrame)
  (keyword : str) : list (nat * str) :=
  filter (fun cd => contains (lower keyword) (lower (snd cd)))
         (list_all_defects data).

(** One of the columns of row 15 that carry the name of the component has,
    for the sub-assembly, the colour the sub-assembly has at the defect
    column. *)
Definition colour_valid (book : option Book) (data : DataFrame)
  (defect_col : nat) (se comp : str) : bool :=
  existsb
    (fun k => color_eqb (get_component_color book se k)
                        (get_cell_color book se defect_col))
    (name_columns data (strip comp)).

(** ** A workbook of the examples *)

(** A sheet with the label "Housing" in row 5.  The cells of the columns
    [same] have the XF record 1 and the others the XF record 0, of
    pattern colours 13 and 64. *)
Definition book_housing (same : list nat) : Book :=
  {| sheet_cell :=
       fun r c => if (r =? 5) && (c =? 75)
                  then Some (XL_CELL_TEXT (u"Housing"))
                  else Some XL_CELL_OTHER;
     cell_xf_index :=
       fun _ c => Some (if existsb (Nat.eqb c) same then 1 else 0);
     xf_list := [64%Z; 13%Z] |}.

(** As [grid_housing], the name "Bolt" standing in the columns 10 and 40
    of row 15, and a second component "Nut" in column 11. *)
Definition grid_two_columns : DataFrame :=
  grid_of 21 81
    [ (15, 80, u"Crack"); (5, 80, c_cedil); (5, 75, u"Housing");
      (5, 10, e_circ); (5, 11, e_circ);
      (15, 10, u"Bolt"); (15, 40, u"Bolt"); (15, 11, u"Nut") ].

(** * Properties *)

(** ** Strings *)

Module PyStrFacts.

Lemma eqb_eq (s t : str) : eqb s t = true <-> s = t.
Proof.
  revert t; induction s as [|c s IH]; intros [|d t]; simpl;
    try (split; [discriminate | discriminate]); try tauto.
  rewrite andb_true_iff, N.eqb_eq, IH.
  split; [intros [-> ->]; reflexivity | intros H; injection H; auto].
Qed.

Lemma eqb_refl (s : str) : eqb s s = true.
Proof. apply eqb_eq; reflexivity. Qed.

Lemma eqb_neq (s t : str) : eqb s t = false <-> s <> t.
Proof.
  rewrite <- eqb_eq. destruct (eqb s t); split; congruence.
Qed.

Lemma eqb_sym (s t : str) : eqb s t = eqb t s.
Proof.
  destruct (eqb s t) eqn:E.
  - apply eqb_eq in E; subst; symmetry; apply eqb_refl.
  - destruct (eqb t s) eqn:E'; [|reflexivity].
    apply eqb_eq in E'; subst. rewrite eqb_refl in E; discriminate.
Qed.

Lemma mem_In (x : str) (l : list str) : mem x l = true <-> In x l.
Proof.
  unfold mem. rewrite existsb_exists. split.
  - intros [y [Hy E]]. apply eqb_eq in E; subst; assumption.
  - intros H. exists x. split; [assumption | apply eqb_refl].
Qed.

Lemma mem_not_In (x : str) (l : list str) : mem x l = false <-> ~ In x l.
Proof.
  rewrite <- mem_In. destruct (mem x l); split; congruence.
Qed.

Lemma mem_app (x : str) (l1 l2 : list str) :
  mem x (l1 ++ l2) = mem x l1 || mem x l2.
Proof. unfold mem. apply existsb_app. Qed.

Lemma truthy_nonempty (s : str) : truthy s = true <-> s <> [].
Proof. destruct s; simpl; split; congruence. Qed.

Lemma truthy_eqb_nil (s : str) : truthy s = negb (eqb s []).
Proof. destruct s; reflexivity. Qed.

(** A string that starts with a character that is not a space is left
    alone by [lstrip], and keeps that character under [rstrip]. *)
Lemma lstrip_snoc (l : str) (c : char) :
  isspace c = false -> exists l', lstrip (l ++ [c]) = l' ++ [c].
Proof.
  intros Hc. induction l as [|d l IH]; simpl.
  - rewrite Hc. exists []; reflexivity.
  - destruct (isspace d).
    + exact IH.
    + exists (d :: l); reflexivity.
Qed.

Lemma lstrip_head (s : str) :
  lstrip s = [] \/ exists c t, lstrip s = c :: t /\ isspace c = false.
Proof.
  induction s as [|c s IH]; simpl.
  - left; reflexivity.
  - destruct (isspace c) eqn:E.
    + exact IH.
    + right. exists c, s. split; [reflexivity | assumption].
Qed.

Lemma lstrip_idem (s : str) : lstrip (lstrip s) = lstrip s.
Proof.
  destruct (lstrip_head s) as [-> | [c [t [-> Hc]]]]; simpl.
  - reflexivity.
  - rewrite Hc; reflexivity.
Qed.

Lemma rstrip_idem (s : str) : rstrip (rstrip s) = rstrip s.
Proof.
  unfold rstrip. rewrite rev_involutive, lstrip_idem. reflexivity.
Qed.

Lemma lstrip_rstrip_lstrip (s : str) :
  lstrip (rstrip (lstrip s)) = rstrip (lstrip s).
Proof.
  destruct (lstrip_head s) as [-> | [c [t [-> Hc]]]].
  - reflexivity.
  - unfold rstrip. simpl rev.
    destruct (lstrip_snoc (rev t) c Hc) as [l' ->].
    rewrite rev_app_distr. simpl. rewrite Hc. reflexivity.
Qed.

(** [s.strip().strip() == s.strip()] *)
Lemma strip_idem (s : str) : strip (strip s) = strip s.
Proof.
  unfold strip. rewrite lstrip_rstrip_lstrip. apply rstrip_idem.
Qed.

End PyStrFacts.

Import PyStrFacts.

(** ** Exceptions and loops *)

Lemma bind_Ok {A B : Type} (m : result A) (k : A -> result B) (b : B) :
  bind m k = Ok b -> exists a, m = Ok a /\ k a = Ok b.
Proof.
  destruct m as [a|e]; simpl; intros H; [|discriminate].
  exists a; split; [reflexivity | assumption].
Qed.

(** A loop whose body appends [f x] to the list it threads. *)
Lemma for_each_app {A B : Type} (f : A -> list B)
  (body : list B -> A -> result (list B)) (xs : list A) :
  (forall acc x, In x xs -> body acc x = Ok (acc ++ f x)) ->
  forall acc, for_each xs body acc = Ok (acc ++ flat_map f xs).
Proof.
  induction xs as [|x xs IH]; intros Hb acc; simpl.
  - rewrite app_nil_r; reflexivity.
  - rewrite Hb by (left; reflexivity). simpl.
    rewrite IH by (intros; apply Hb; right; assumption).
    rewrite app_assoc; reflexivity.
Qed.

(** A loop whose body appends the elements of [f x] not yet in the list
    it threads. *)
Lemma uniq_from_app (seen l1 l2 : list str) :
  uniq_from seen (l1 ++ l2)
  = uniq_from seen l1 ++ uniq_from (seen ++ uniq_from seen l1) l2.
Proof.
  revert seen; induction l1 as [|x l1 IH]; intros seen; simpl.
  - rewrite app_nil_r; reflexivity.
  - destruct (mem x seen).
    + apply IH.
    + simpl. rewrite IH, <- app_assoc. reflexivity.
Qed.

Lemma for_each_uniq {A : Type} (f : A -> list str)
  (body : list str -> A -> result (list str)) (xs : list A) :
  (forall acc x, In x xs -> body acc x = Ok (acc ++ uniq_from acc (f x))) ->
  forall acc,
    for_each xs body acc = Ok (acc ++ uniq_from acc (flat_map f xs)).
Proof.
  induction xs as [|x xs IH]; intros Hb acc; simpl.
  - rewrite app_nil_r; reflexivity.
  - rewrite Hb by (left; reflexivity). simpl.
    rewrite IH by (intros; apply Hb; right; assumption).
    rewrite uniq_from_app, app_assoc. reflexivity.
Qed.

Lemma for_each_total {A S : Type} (body : S -> A -> result S)
  (xs : list A) :
  (forall s x, In x xs -> exists s', body s x = Ok s') ->
  forall s, exists s', for_each xs body s = Ok s'.
Proof.
  induction xs as [|x xs IH]; intros Hb s; simpl.
  - exists s; reflexivity.
  - destruct (Hb s x (or_introl eq_refl)) as [s1 ->]. simpl.
    apply IH. intros; apply Hb; right; assumption.
Qed.

(** ** Deduplication *)

Lemma uniq_from_ext (s1 s2 l : list str) :
  (forall x, mem x s1 = mem x s2) -> uniq_from s1 l = uniq_from s2 l.
Proof.
  revert s1 s2; induction l as [|x l IH]; intros s1 s2 H; simpl.
  - reflexivity.
  - rewrite <- H. destruct (mem x s1).
    + apply IH; assumption.
    + f_equal. apply IH. intros y. rewrite !mem_app, H. reflexivity.
Qed.

Lemma uniq_from_spec (l seen : list str) :
  NoDup (uniq_from seen l)
  /\ forall x, In x (uniq_from seen l) <-> In x l /\ ~ In x seen.
Proof.
  revert seen; induction l as [|a l IH]; intros seen; simpl.
  - split; [constructor | intros x; tauto].
  - destruct (mem a seen) eqn:E.
    + destruct (IH seen) as [ND Hin]. split; [assumption|].
      intros x. rewrite Hin. apply mem_In in E.
      split; [tauto | intros [[->|H] Hn]; tauto].
    + destruct (IH (seen ++ [a])) as [ND Hin]. apply mem_not_In in E.
      split.
      * constructor; [|assumption]. rewrite Hin, in_app_iff. simpl. tauto.
      * intros x. simpl. rewrite Hin, in_app_iff. simpl.
        destruct (list_eq_dec N.eq_dec a x) as [->|Hne]; tauto.
Qed.

Lemma uniq_from_NoDup (seen l : list str) : NoDup (uniq_from seen l).
Proof. apply uniq_from_spec. Qed.

Lemma uniq_from_In (seen l : list str) (x : str) :
  In x (uniq_from seen l) <-> In x l /\ ~ In x seen.
Proof. apply uniq_from_spec. Qed.

Lemma uniq_from_seen (seen l : list str) :
  (forall x, In x l -> In x seen) -> uniq_from seen l = [].
Proof.
  intros H. destruct (uniq_from seen l) as [|y t] eqn:E; [reflexivity|].
  assert (Hy : In y (uniq_from seen l)) by (rewrite E; left; reflexivity).
  apply uniq_from_In in Hy. destruct Hy as [Hy Hn]. elim Hn; auto.
Qed.

Lemma dedup_loop (l seen uniques : list str) :
  fold_left dedup_step l (seen, uniques)
  = (seen ++ uniq_from seen l, uniques ++ uniq_from seen l).
Proof.
  revert seen uniques; induction l as [|x l IH]; intros seen uniques; simpl.
  - rewrite !app_nil_r; reflexivity.
  - destruct (mem x seen).
    + apply IH.
    + rewrite IH, <- !app_assoc. reflexivity.
Qed.

Lemma dedup_uniq (l : list str) : dedup l = uniq_from [] l.
Proof. unfold dedup. rewrite dedup_loop. reflexivity. Qed.

Lemma dedup_NoDup (l : list str) : NoDup (dedup l).
Proof. rewrite dedup_uniq. apply uniq_from_NoDup. Qed.

Lemma dedup_In (l : list str) (x : str) : In x (dedup l) <-> In x l.
Proof. rewrite dedup_uniq, uniq_from_In. simpl. tauto. Qed.

(** The loop keeps exactly the first occurrences. *)
Lemma first_occ_from_cons (pre : list str) (x : str) (l : list str) :
  first_occ_from pre (x :: l)
  = (if mem x pre then [] else [x]) ++ first_occ_from (pre ++ [x]) l.
Proof.
  unfold first_occ_from. simpl length. simpl seq. simpl flat_map.
  rewrite app_nil_r. f_equal.
  rewrite <- seq_shift, flat_map_concat_map, map_map,
    <- flat_map_concat_map.
  apply flat_map_ext. intros i. simpl.
  rewrite <- app_assoc. reflexivity.
Qed.

Lemma uniq_from_first_occ (l seen : list str) :
  uniq_from seen l = first_occ_from seen l.
Proof.
  revert seen; induction l as [|x l IH]; intros seen.
  - reflexivity.
  - rewrite first_occ_from_cons. simpl. destruct (mem x seen) eqn:E.
    + simpl. rewrite <- IH. apply uniq_from_ext.
      intros y. rewrite mem_app. simpl. rewrite orb_false_r.
      destruct (eqb y x) eqn:Eyx.
      * apply eqb_eq in Eyx; subst. rewrite E; reflexivity.
      * rewrite orb_false_r; reflexivity.
    + simpl. f_equal. apply IH.
Qed.

Lemma dedup_first_occurrences (l : list str) :
  dedup l = first_occurrences l.
Proof. rewrite dedup_uniq. apply uniq_from_first_occ. Qed.

(** ** Access to the grid *)

Lemma in_range (lo hi x : nat) : In x (range lo hi) <-> lo <= x < hi.
Proof. unfold range. rewrite in_seq. lia. Qed.

Lemma iloc_inside (data : DataFrame) (r c : nat) :
  r < len data -> c < n_columns data ->
  iloc data r c = Ok (cell_at data r c).
Proof.
  intros Hr Hc. unfold iloc, cell_at.
  apply Nat.ltb_lt in Hr, Hc. rewrite Hr, Hc. reflexivity.
Qed.

Lemma cell_at_outside (data : DataFrame) (r c : nat) :
  len data <= r \/ n_columns data <= c -> cell_at data r c = None.
Proof.
  intros H. unfold cell_at.
  destruct (r <? len data) eqn:Er; [|reflexivity].
  destruct (c <? n_columns data) eqn:Ec; [|reflexivity].
  apply Nat.ltb_lt in Er, Ec. lia.
Qed.

Lemma cell_at_Some (data : DataFrame) (r c : nat) (s : str) :
  cell_at data r c = Some s -> r < len data /\ c < n_columns data.
Proof.
  intros H.
  destruct (Nat.lt_ge_cases r (len data)) as [Hr|Hr];
    [destruct (Nat.lt_ge_cases c (n_columns data)) as [Hc|Hc]|];
    [tauto | | ]; rewrite cell_at_outside in H by lia; discriminate.
Qed.

Lemma iloc_if_col_ok (data : DataFrame) (r c : nat) :
  r < len data \/ n_columns data <= c ->
  iloc_if_col data r c = Ok (cell_at data r c).
Proof.
  intros H. unfold iloc_if_col.
  destruct (c <? n_columns data) eqn:Ec.
  - apply Nat.ltb_lt in Ec. apply iloc_inside; lia.
  - apply Nat.ltb_ge in Ec. rewrite cell_at_outside by lia. reflexivity.
Qed.

Lemma iloc_if_col_raise (data : DataFrame) (r c : nat) :
  len data <= r -> c < n_columns data ->
  iloc_if_col data r c = Raise IndexError.
Proof.
  intros Hr Hc. unfold iloc_if_col, iloc.
  apply Nat.ltb_lt in Hc. apply Nat.ltb_ge in Hr. rewrite Hc, Hr.
  reflexivity.
Qed.

Lemma marked_outside (data : DataFrame) (ms : list str) (r c : nat) :
  len data <= r \/ n_columns data <= c -> marked data ms r c = false.
Proof. intros H. unfold marked. rewrite cell_at_outside; auto. Qed.

(** ** The loops compute the resolution rules *)

Lemma flat_map_flat_map {A B C : Type} (f : A -> list B) (g : B -> list C)
  (l : list A) :
  flat_map g (flat_map f l) = flat_map (fun x => flat_map g (f x)) l.
Proof.
  induction l as [|x l IH]; simpl.
  - reflexivity.
  - rewrite flat_map_app, IH. reflexivity.
Qed.

Arguments mem : simpl never.
Arguments strip : simpl never.
Arguments truthy : simpl never.
Arguments range : simpl never.
Arguments marker_columns : simpl never.
Arguments name_columns : simpl never.

Lemma flat_map_nil {A B : Type} (f : A -> list B) (l : list A) :
  (forall x, In x l -> f x = []) -> flat_map f l = [].
Proof.
  induction l as [|x l IH]; intros H; simpl.
  - reflexivity.
  - rewrite H by (left; reflexivity). apply IH.
    intros; apply H; right; assumption.
Qed.

Section Refinement.

Variable data : DataFrame.

(** The marker loop of [get_sous_ensembles] never raises. *)
Lemma sous_ensembles_loop_spec (defect_col : nat) :
  sous_ensembles_loop data defect_col
  = Ok (first_occurrences (marked_labels data defect_col)).
Proof.
  unfold sous_ensembles_loop, marked_labels.
  change (first_occurrences ?l) with ([] ++ first_occ_from [] l).
  rewrite <- uniq_from_first_occ.
  apply for_each_uniq. intros acc r _.
  unfold sous_ensembles_body.
  destruct ((r <? len data) && (defect_col <? n_columns data)) eqn:Eb.
  - apply andb_true_iff in Eb. destruct Eb as [Er Ec].
    apply Nat.ltb_lt in Er, Ec.
    rewrite iloc_inside by assumption. simpl.
    unfold marked. destruct (cell_at data r defect_col) as [s|]; simpl.
    + unfold target_marker.
      replace (mem (strip s) [c_cedil]) with (eqb (strip s) c_cedil)
        by (unfold mem; simpl; rewrite orb_false_r; reflexivity).
      destruct (eqb (strip s) c_cedil); simpl.
      * rewrite iloc_if_col_ok by (left; assumption). simpl.
        unfold label. destruct (cell_at data r 75) as [n|]; simpl.
        -- destruct (truthy (strip n)); simpl.
           ++ destruct (mem (strip n) acc); simpl;
                [rewrite app_nil_r|]; reflexivity.
           ++ rewrite app_nil_r; reflexivity.
        -- rewrite app_nil_r; reflexivity.
      * rewrite app_nil_r; reflexivity.
    + rewrite app_nil_r; reflexivity.
  - rewrite marked_outside.
    + simpl. rewrite app_nil_r; reflexivity.
    + apply andb_false_iff in Eb.
      destruct Eb as [E|E]; apply Nat.ltb_ge in E; auto.
Qed.

Lemma find_sub_row_spec (name : str) (rows : list nat) :
  (forall r, In r rows -> r < len data) \/ n_columns data <= 75 ->
  find_sub_row data name rows = Ok (find (label_is data name) rows).
Proof.
  intros H. induction rows as [|r rows IH]; simpl.
  - reflexivity.
  - rewrite iloc_if_col_ok.
    + simpl. unfold label_is at 1.
      destruct (cell_at data r 75) as [s|]; simpl.
      * destruct (eqb (strip s) name); [reflexivity|].
        apply IH. destruct H as [H|H]; [left|right; assumption].
        intros; apply H; right; assumption.
      * apply IH. destruct H as [H|H]; [left|right; assumption].
        intros; apply H; right; assumption.
    + destruct H as [H|H]; [left; apply H; left; reflexivity|right; lia].
Qed.

Lemma sub_assembly_row_found (name : str) (r : nat) :
  sub_assembly_row data name = Some r ->
  3 <= r < 14 /\ r < len data /\ 75 < n_columns data
  /\ label_is data name r = true.
Proof.
  unfold sub_assembly_row. intros H. apply find_some in H.
  destruct H as [Hin Hl]. apply in_range in Hin.
  unfold label_is in Hl.
  destruct (cell_at data r 75) as [s|] eqn:E; [|discriminate].
  pose proof (cell_at_Some _ _ _ E) as HE.
  unfold label_is. rewrite E. tauto.
Qed.

Lemma sub_assembly_row_narrow (name : str) :
  n_columns data <= 75 -> sub_assembly_row data name = None.
Proof.
  intros H. destruct (sub_assembly_row data name) as [r|] eqn:E;
    [|reflexivity].
  apply sub_assembly_row_found in E. lia.
Qed.

Lemma find_sub_row_rows (name : str) :
  14 <= len data \/ n_columns data <= 75 ->
  find_sub_row data name (range 3 14) = Ok (sub_assembly_row data name).
Proof.
  intros H. apply find_sub_row_spec.
  destruct H as [H|H]; [left|right; assumption].
  intros r Hr. apply in_range in Hr. lia.
Qed.

(** [str] of a missing value is [nan], not a marker. *)
Lemma nan_not_marker : mem (strip (u"nan")) markers = false.
Proof. reflexivity. Qed.

Lemma composants_body_spec (r : nat) (comps : list str) (col : nat) :
  r < len data -> 15 < len data ->
  composants_body data r comps col
  = Ok (comps ++ (if marked data markers r col
                  then opt_list (component_name data col) else [])).
Proof.
  intros Hr H15. unfold composants_body.
  destruct (col <? n_columns data) eqn:Ec.
  - apply Nat.ltb_lt in Ec. rewrite iloc_inside by assumption. simpl.
    unfold marked. destruct (cell_at data r col) as [s|]; simpl py_str.
    + destruct (mem (strip s) markers).
      * rewrite iloc_if_col_ok by (left; assumption). simpl.
        unfold component_name.
        destruct (cell_at data 15 col) as [n|]; simpl.
        -- rewrite truthy_eqb_nil.
           destruct (negb (mem (strip n) markers) && negb (eqb (strip n) []));
             simpl; [|rewrite app_nil_r]; reflexivity.
        -- rewrite app_nil_r; reflexivity.
      * rewrite app_nil_r; reflexivity.
    + rewrite nan_not_marker.
      rewrite app_nil_r; reflexivity.
  - apply Nat.ltb_ge in Ec. rewrite marked_outside by (right; assumption).
    rewrite app_nil_r; reflexivity.
Qed.

(** [get_composants] on a grid that has row 15. *)
Lemma get_composants_spec (name : str) :
  16 <= len data \/ n_columns data <= 75 ->
  get_composants data name = Ok (spec_composants data name).
Proof.
  intros H. unfold get_composants, spec_composants.
  rewrite find_sub_row_rows by lia. cbn [bind].
  destruct (sub_assembly_row data name) as [r|] eqn:E; [|reflexivity].
  apply sub_assembly_row_found in E.
  change (Ok (flat_map ?f ?l)) with (Ok ([] ++ flat_map f l)).
  apply for_each_app. intros acc col _.
  apply composants_body_spec; lia.
Qed.

Lemma component_cols_spec (r : nat) :
  r < len data ->
  for_each (range 0 74) (component_cols_body data r) []
  = Ok (marker_columns data r).
Proof.
  intros Hr. unfold marker_columns.
  change (Ok (flat_map ?f ?l)) with (Ok ([] ++ flat_map f l)).
  apply for_each_app. intros acc col _. unfold component_cols_body.
  destruct (col <? n_columns data) eqn:Ec.
  - apply Nat.ltb_lt in Ec. rewrite iloc_inside by assumption. simpl.
    unfold marked. destruct (cell_at data r col) as [s|]; simpl py_str.
    + destruct (mem (strip s) markers); [|rewrite app_nil_r]; reflexivity.
    + rewrite nan_not_marker.
      rewrite app_nil_r; reflexivity.
  - apply Nat.ltb_ge in Ec. rewrite marked_outside by (right; assumption).
    rewrite app_nil_r; reflexivity.
Qed.

Lemma linked_body_spec (row : nat) (linked : list str) (col : nat) :
  row < len data -> 15 < len data ->
  linked_body data row linked col
  = Ok (linked ++ (if marked data param_markers row col
                   then opt_list (component_name data col) else [])).
Proof.
  intros Hr H15. unfold linked_body.
  destruct (col <? n_columns data) eqn:Ec.
  - apply Nat.ltb_lt in Ec. rewrite iloc_inside by assumption. simpl.
    unfold marked. destruct (cell_at data row col) as [s|]; simpl.
    + destruct (mem (strip s) param_markers).
      * rewrite iloc_if_col_ok by (left; assumption). simpl.
        unfold component_name.
        destruct (cell_at data 15 col) as [n|]; simpl.
        -- rewrite truthy_eqb_nil.
           destruct (negb (mem (strip n) markers) && negb (eqb (strip n) []));
             simpl; [|rewrite app_nil_r]; reflexivity.
        -- rewrite app_nil_r; reflexivity.
      * rewrite app_nil_r; reflexivity.
    + rewrite app_nil_r; reflexivity.
  - apply Nat.ltb_ge in Ec. rewrite marked_outside by (right; assumption).
    rewrite app_nil_r; reflexivity.
Qed.

Lemma linked_loop_spec (r row : nat) :
  row < len data -> 15 < len data ->
  for_each (marker_columns data r) (linked_body data row) []
  = Ok (spec_linked data r row).
Proof.
  intros Hr H15. unfold marker_columns.
  rewrite (for_each_app
             (fun col => if marked data param_markers row col
                         then opt_list (component_name data col) else [])).
  - cbn [app]. rewrite flat_map_flat_map. unfold spec_linked. f_equal.
    apply flat_map_ext. intros col.
    destruct (marked data markers r col); simpl;
      [rewrite app_nil_r|]; reflexivity.
  - intros acc col _. apply linked_body_spec; assumption.
Qed.

Lemma parametres_body_spec (r row : nat) (params : list Parametre) :
  17 <= row < len data ->
  parametres_body data (marker_columns data r) params row
  = Ok (params ++ opt_list (spec_row_parametre data r row)).
Proof.
  intros Hrow. unfold parametres_body, spec_row_parametre.
  rewrite !iloc_if_col_ok by (left; lia). cbn [bind].
  destruct (cell_at data row 75) as [n|]; cbn [notna py_str].
  - rewrite linked_loop_spec by lia. cbn [bind].
    destruct (spec_linked data r row) as [|c linked]; simpl.
    + rewrite app_nil_r; reflexivity.
    + rewrite truthy_eqb_nil.
      destruct (mem (strip n) markers), (eqb (strip n) []); simpl;
        try (rewrite app_nil_r; reflexivity).
      destruct (cell_at data row 76); reflexivity.
  - rewrite app_nil_r; reflexivity.
Qed.

(** [get_parametres] on a grid that has the sub-assembly rows. *)
Lemma get_parametres_spec (name : str) :
  14 <= len data \/ n_columns data <= 75 ->
  get_parametres data name = Ok (spec_parametres data name).
Proof.
  intros H. unfold get_parametres, spec_parametres.
  destruct (truthy name); cbn [negb]; [|reflexivity].
  rewrite find_sub_row_rows by assumption. cbn [bind].
  destruct (sub_assembly_row data name) as [r|] eqn:E; [|reflexivity].
  apply sub_assembly_row_found in E.
  rewrite component_cols_spec by lia. cbn [bind].
  change (Ok (flat_map ?f ?l)) with (Ok ([] ++ flat_map f l)).
  apply for_each_app. intros acc row Hrow. apply in_range in Hrow.
  apply parametres_body_spec; lia.
Qed.

End Refinement.

(** ** The assembly *)

Section Assembly.

Variable lower : str -> str.
Variable re_compile : str -> option (str -> bool).
Variable data : DataFrame.

(** A defect column is found in row 15 only. *)
Lemma find_defect_column_found (name : str) (col : nat) :
  find_defect_column lower re_compile data name = Ok (Some col) ->
  15 < len data.
Proof.
  unfold find_defect_column.
  destruct (len data <=? 15) eqn:E; [discriminate|].
  intros _. apply Nat.leb_gt in E. exact E.
Qed.

Lemma get_sous_ensembles_spec (defect_col : nat) :
  13 < len data \/ n_columns data <= 75 ->
  get_sous_ensembles data defect_col
  = Ok (resolved_sous_ensembles data defect_col).
Proof.
  intros H. unfold get_sous_ensembles, resolved_sous_ensembles.
  rewrite sous_ensembles_loop_spec. cbn [bind].
  destruct (first_occurrences (marked_labels data defect_col));
    [|reflexivity].
  rewrite iloc_if_col_ok by lia. cbn [bind].
  destruct (cell_at data 13 75); reflexivity.
Qed.

Lemma analyze_loop_spec (ses : list str) :
  16 <= len data ->
  forall comps params,
    for_each ses (analyze_body data) (comps, params)
    = Ok (comps ++ flat_map (spec_composants data) ses,
          params ++ flat_map (spec_parametres data) ses).
Proof.
  intros H. induction ses as [|se ses IH]; intros comps params.
  - simpl. rewrite !app_nil_r. reflexivity.
  - cbn [for_each analyze_body].
    rewrite get_composants_spec, get_parametres_spec by lia.
    cbn [bind]. rewrite IH. cbn [flat_map].
    rewrite !app_assoc. reflexivity.
Qed.

(** Once the defect column is found, [analyze_defect] returns. *)
Lemma analyze_defect_found (name : str) (col : nat) :
  find_defect_column lower re_compile data name = Ok (Some col) ->
  analyze_defect lower re_compile data name
  = Ok (AnalysisFound
          {| defect_name := name;
             defect_column := col;
             sous_ensembles := resolved_sous_ensembles data col;
             composants :=
               dedup (flat_map (spec_composants data)
                               (resolved_sous_ensembles data col));
             parametres :=
               flat_map (spec_parametres data)
                        (resolved_sous_ensembles data col) |}).
Proof.
  intros Hf. pose proof (find_defect_column_found _ Hf) as H15.
  unfold analyze_defect. rewrite Hf. cbn [bind].
  rewrite get_sous_ensembles_spec by lia. cbn [bind].
  rewrite analyze_loop_spec by lia. reflexivity.
Qed.

Lemma analyze_defect_inv (name : str) (h : Hierarchy) :
  analyze_defect lower re_compile data name = Ok (AnalysisFound h) ->
  find_defect_column lower re_compile data name
  = Ok (Some (defect_column h)).
Proof.
  intros H.
  destruct (find_defect_column lower re_compile data name)
    as [[col|]|e] eqn:Hf.
  - rewrite (analyze_defect_found _ Hf) in H.
    injection H as <-. reflexivity.
  - unfold analyze_defect in H. rewrite Hf in H. discriminate.
  - unfold analyze_defect in H. rewrite Hf in H. discriminate.
Qed.

(** The components of an analysis come from row 15, over a grid wide
    enough to hold the label column. *)
Lemma spec_composants_In (name c : str) :
  In c (spec_composants data name) ->
  75 < n_columns data
  /\ exists col s, col < 74 /\ cell_at data 15 col = Some s
                   /\ c = strip s.
Proof.
  unfold spec_composants.
  destruct (sub_assembly_row data name) as [r|] eqn:E; [|intros []].
  apply sub_assembly_row_found in E. intros Hc. split; [lia|].
  apply in_flat_map in Hc. destruct Hc as [col [Hcol Hc]].
  apply in_range in Hcol.
  destruct (marked data markers r col); [|destruct Hc].
  unfold component_name in Hc.
  destruct (cell_at data 15 col) as [s|] eqn:Es; [|destruct Hc].
  destruct (negb (mem (strip s) markers) && truthy (strip s));
    [|destruct Hc].
  destruct Hc as [<-|[]]. exists col, s.
  split; [lia | split; [exact Es | reflexivity]].
Qed.

Lemma filter_nil_existsb {A : Type} (f : A -> bool) (l : list A) :
  filter f l = [] <-> existsb f l = false.
Proof.
  induction l as [|x l IH]; simpl.
  - tauto.
  - destruct (f x); simpl; [split; discriminate | exact IH].
Qed.

(** The last loop of [get_filtered_hierarchy]. *)
Lemma filter_parametres_spec (good : list str) (params : list Parametre) :
  filter_parametres good params
  = map (restrict good) (filter (meets good) params).
Proof.
  unfold filter_parametres.
  match goal with |- fold_left ?f _ _ = _ => set (step := f) end.
  enough (Hloop : forall acc,
             fold_left step params acc
             = acc ++ map (restrict good) (filter (meets good) params))
    by apply Hloop.
  induction params as [|p params IH]; intros acc; simpl.
  - rewrite app_nil_r; reflexivity.
  - rewrite IH. unfold step at 1, meets at 2.
    destruct (filter (fun c => mem c good) (components p)) eqn:E.
    + apply filter_nil_existsb in E. rewrite E. reflexivity.
    + destruct (existsb (fun c => mem c good) (components p)) eqn:E'.
      * simpl. unfold restrict at 2. rewrite E, <- app_assoc.
        reflexivity.
      * apply filter_nil_existsb in E'. congruence.
Qed.

End Assembly.

(** ** The colour filter *)

Lemma fold_left_app_if {A B : Type} (p : A -> bool) (c : B) (l : list A) :
  forall acc,
    fold_left (fun acc x => if p x then acc ++ [c] else acc) l acc
    = acc ++ flat_map (fun x => if p x then [c] else []) l.
Proof.
  induction l as [|x l IH]; intros acc; simpl.
  - rewrite app_nil_r; reflexivity.
  - rewrite IH. destruct (p x); simpl.
    + rewrite <- app_assoc; reflexivity.
    + reflexivity.
Qed.

Section Filter.

Variable lower : str -> str.
Variable re_compile : str -> option (str -> bool).
Variable data : DataFrame.
Variable book : option Book.

Lemma comp_cols_spec (comp_name : str) :
  15 < len data -> 74 <= n_columns data ->
  for_each (range 0 74) (comp_cols_body data comp_name) []
  = Ok (name_columns data comp_name).
Proof.
  intros H15 H74. unfold name_columns.
  change (Ok (flat_map ?f ?l)) with (Ok ([] ++ flat_map f l)).
  apply for_each_app. intros acc col Hcol. apply in_range in Hcol.
  unfold comp_cols_body. rewrite iloc_inside by lia. cbn [bind].
  destruct (cell_at data 15 col) as [s|]; cbn [notna py_str andb].
  - destruct (eqb (strip s) comp_name); [|rewrite app_nil_r]; reflexivity.
  - rewrite app_nil_r; reflexivity.
Qed.

Lemma bonnes_comp_body_spec (se : str) (idx : option Z)
  (bonnes : list str) (comp : str) :
  15 < len data -> 74 <= n_columns data ->
  bonnes_comp_body data book se idx bonnes comp
  = Ok (bonnes ++ validated_for book data se idx comp).
Proof.
  intros H15 H74. unfold bonnes_comp_body, validated_for.
  rewrite comp_cols_spec by assumption. cbn [bind].
  rewrite (fold_left_app_if
             (fun col => color_eqb (get_component_color book se col) idx)).
  reflexivity.
Qed.

Lemma bonnes_comps_loop (se : str) (idx : option Z) (comps : list str) :
  comps = [] \/ (15 < len data /\ 74 <= n_columns data) ->
  forall bonnes,
    for_each comps (bonnes_comp_body data book se idx) bonnes
    = Ok (bonnes ++ flat_map (validated_for book data se idx) comps).
Proof.
  intros [-> | [H15 H74]] bonnes.
  - simpl. rewrite app_nil_r; reflexivity.
  - apply for_each_app. intros acc comp _.
    apply bonnes_comp_body_spec; assumption.
Qed.

(** The loop over the sub-assemblies.  The cache only ever holds the
    colour that [get_cell_color] gives, so reading it is reading the
    colour of the sub-assembly at the defect column. *)
Lemma bonnes_se_loop (defect_col : nat) (comps ses : list str) :
  comps = [] \/ (15 < len data /\ 74 <= n_columns data) ->
  forall cache bonnes,
    (forall k v, cache_get k cache = Some v ->
                 v = get_cell_color book k defect_col) ->
    exists cache',
      for_each ses (bonnes_se_body data book defect_col comps)
               (cache, bonnes)
      = Ok (cache',
            bonnes ++
            flat_map
              (fun se =>
                 flat_map
                   (validated_for book data se
                      (get_cell_color book se defect_col))
                   comps)
              ses).
Proof.
  intros Hc. induction ses as [|se ses IH]; intros cache bonnes Hcache.
  - exists cache. simpl. rewrite app_nil_r; reflexivity.
  - cbn [for_each bonnes_se_body flat_map].
    destruct (cache_get se cache) as [idx|] eqn:Eg.
    + rewrite (Hcache _ _ Eg).
      rewrite bonnes_comps_loop by assumption. cbn [bind].
      destruct (IH cache
                  (bonnes ++
                   flat_map (validated_for book data se
                               (get_cell_color book se defect_col)) comps)
                  Hcache) as [cache' ->].
      exists cache'. rewrite app_assoc. reflexivity.
    + rewrite bonnes_comps_loop by assumption. cbn [bind].
      destruct (IH ((se, get_cell_color book se defect_col) :: cache)
                  (bonnes ++
                   flat_map (validated_for book data se
                               (get_cell_color book se defect_col)) comps))
        as [cache' ->].
      * intros k v. unfold cache_get. simpl.
        destruct (eqb k se) eqn:Ek.
        -- apply eqb_eq in Ek; subst. intros H; injection H as <-.
           reflexivity.
        -- apply Hcache.
      * exists cache'. rewrite app_assoc. reflexivity.
Qed.

(** Once the defect column is found, [get_filtered_hierarchy] returns,
    whatever the workbook. *)
Lemma get_filtered_hierarchy_found (name : str) (col : nat) :
  find_defect_column lower re_compile data name = Ok (Some col) ->
  let ses := resolved_sous_ensembles data col in
  let comps := dedup (flat_map (spec_composants data) ses) in
  let good := validated book data col ses comps in
  get_filtered_hierarchy lower re_compile data book name
  = Ok {| fh_defect_name := name;
          fh_defect_column := Some col;
          fh_sous_ensembles := ses;
          bonnes_composants := good;
          fh_parametres :=
            filter_parametres good
              (flat_map (spec_parametres data) ses) |}.
Proof.
  intros Hf ses comps good.
  pose proof (find_defect_column_found _ _ _ _ Hf) as H15.
  unfold get_filtered_hierarchy.
  rewrite (analyze_defect_found _ _ _ _ Hf).
  cbn [bind sous_ensembles defect_column composants parametres].
  fold ses. fold comps.
  assert (Hc : comps = [] \/ (15 < len data /\ 74 <= n_columns data)).
  { destruct comps as [|c t] eqn:E; [left; reflexivity|right].
    split; [assumption|].
    assert (Hin : In c comps) by (rewrite E; left; reflexivity).
    unfold comps in Hin. apply dedup_In, in_flat_map in Hin.
    destruct Hin as [se [_ Hin]].
    apply spec_composants_In in Hin. lia. }
  destruct (bonnes_se_loop col ses Hc [] [])
    as [cache' Hloop]; [intros k v; discriminate|].
  replace (match ses with
           | [] => Ok ([], [])
           | _ :: _ =>
               for_each ses (bonnes_se_body data book col comps) ([], [])
           end)
    with (for_each ses (bonnes_se_body data book col comps) ([], []))
    by (destruct ses; reflexivity).
  rewrite Hloop. reflexivity.
Qed.

End Filter.

(** * The claims *)

(** C8: when [find_defect_column] returns [None] for a defect name,
    [analyze_defect] returns the error-tagged result, and
    [get_filtered_hierarchy] returns, whatever the workbook, the
    hierarchy with that name, no defect column, and empty lists of
    sub-assemblies, validated components and parameters; neither
    raises. *)
Theorem not_found_gives_empty_hierarchy
  (lower : str -> str) (re_compile : str -> option (str -> bool))
  (data : DataFrame) (book : option Book) (name : str) :
  find_defect_column lower re_compile data name = Ok None ->
  analyze_defect lower re_compile data name
  = Ok (AnalysisError (introuvable name) name)
  /\ get_filtered_hierarchy lower re_compile data book name
     = Ok (empty_hierarchy name).
Proof.
  intros Hf. unfold get_filtered_hierarchy, analyze_defect.
  rewrite Hf. split; reflexivity.
Qed.

Lemma not_found_gives_empty_hierarchy_witness :
  find_defect_column lower_latin1 re_compile_plain grid_housing (u"dent")
  = Ok None
  /\ analyze_defect lower_latin1 re_compile_plain grid_housing (u"dent")
     = Ok (AnalysisError (introuvable (u"dent")) (u"dent"))
  /\ get_filtered_hierarchy lower_latin1 re_compile_plain grid_housing None
       (u"dent")
     = Ok (empty_hierarchy (u"dent")).
Proof.
  split; [vm_compute; reflexivity|].
  apply (@not_found_gives_empty_hierarchy
           lower_latin1 re_compile_plain grid_housing None (u"dent")).
  vm_compute; reflexivity.
Defined.

(** C9: when the analysis of a defect name succeeds, the filtered
    hierarchy is returned and its parameters are exactly the parameters of
    the analysis whose linked components meet the validated components,
    in their order, each with its linked components cut down to the
    validated ones, in their order. *)
Theorem filtered_parametres_meet_validated
  (lower : str -> str) (re_compile : str -> option (str -> bool))
  (data : DataFrame) (book : option Book) (name : str) (h : Hierarchy) :
  analyze_defect lower re_compile data name = Ok (AnalysisFound h) ->
  exists fh,
    get_filtered_hierarchy lower re_compile data book name = Ok fh
    /\ fh_parametres fh
       = map (restrict (bonnes_composants fh))
             (filter (meets (bonnes_composants fh)) (parametres h)).
Proof.
  intros Ha. pose proof (analyze_defect_inv _ _ _ _ Ha) as Hf.
  pose proof (get_filtered_hierarchy_found _ _ _ book _ Hf) as Hg.
  rewrite (analyze_defect_found _ _ _ _ Hf) in Ha.
  injection Ha as <-. cbn [defect_column] in Hg. cbn zeta in Hg.
  eexists. split; [exact Hg|].
  cbn [fh_parametres bonnes_composants parametres].
  apply filter_parametres_spec.
Qed.

Lemma filtered_parametres_meet_validated_witness :
  exists fh,
    get_filtered_hierarchy lower_latin1 re_compile_plain grid_housing None
      (u"crack") = Ok fh
    /\ fh_parametres fh
       = map (restrict (bonnes_composants fh))
             (filter (meets (bonnes_composants fh))
                [ {| param_name := u"Torque";
                     param_value := u"Retighten to 10Nm";
                     components := [u"Bolt"] |} ]).
Proof.
  apply (@filtered_parametres_meet_validated
           lower_latin1 re_compile_plain grid_housing None (u"crack")
           {| defect_name := u"crack";
              defect_column := 80;
              sous_ensembles := [u"Housing"];
              composants := [u"Bolt"];
              parametres :=
                [ {| param_name := u"Torque";
                     param_value := u"Retighten to 10Nm";
                     components := [u"Bolt"] |} ] |}).
  vm_compute; reflexivity.
Defined.

(** C10: the parameters of an analysis are the concatenation, in the
    order of the sub-assemblies, of what [get_parametres] returns for each
    of them, with no deduplication, while the components are
    deduplicated; and on [grid_two_sub_assemblies], whose two distinct
    sub-assemblies both hold the component column linked to parameter
    row 20, that row is listed twice. *)
Theorem parametres_concatenated_without_dedup :
  (forall (lower : str -> str) (re_compile : str -> option (str -> bool))
          (data : DataFrame) (name : str) (h : Hierarchy),
      analyze_defect lower re_compile data name = Ok (AnalysisFound h) ->
      NoDup (composants h)
      /\ exists pss,
           Forall2 (fun se ps => get_parametres data se = Ok ps)
                   (sous_ensembles h) pss
           /\ parametres h = concat pss)
  /\ exists h p,
       analyze_defect lower_latin1 re_compile_plain
         grid_two_sub_assemblies (u"crack") = Ok (AnalysisFound h)
       /\ sous_ensembles h = [u"Housing"; u"Frame"]
       /\ composants h = [u"Bolt"]
       /\ parametres h = [p; p].
Proof.
  split.
  - intros lower re_compile data name h Ha.
    pose proof (analyze_defect_inv _ _ _ _ Ha) as Hf.
    pose proof (find_defect_column_found _ _ _ _ Hf) as H15.
    rewrite (analyze_defect_found _ _ _ _ Hf) in Ha.
    injection Ha as <-. cbn [composants sous_ensembles parametres].
    split; [apply dedup_NoDup|].
    exists (map (spec_parametres data)
                (resolved_sous_ensembles data (defect_column h))).
    split.
    + induction (resolved_sous_ensembles data (defect_column h))
        as [|se ses IH]; simpl; constructor.
      * apply get_parametres_spec; lia.
      * exact IH.
    + apply flat_map_concat_map.
  - eexists. eexists. vm_compute. repeat split; reflexivity.
Qed.

Lemma parametres_concatenated_without_dedup_witness :
  exists pss,
    Forall2 (fun se ps => get_parametres grid_two_sub_assemblies se = Ok ps)
            [u"Housing"; u"Frame"] pss
    /\ [ {| param_name := u"Torque";
            param_value := u"Retighten to 10Nm";
            components := [u"Bolt"] |};
         {| param_name := u"Torque";
            param_value := u"Retighten to 10Nm";
            components := [u"Bolt"] |} ] = concat pss.
Proof.
  apply (proj1 parametres_concatenated_without_dedup
           lower_latin1 re_compile_plain grid_two_sub_assemblies (u"crack")
           {| defect_name := u"crack";
              defect_column := 80;
              sous_ensembles := [u"Housing"; u"Frame"];
              composants := [u"Bolt"];
              parametres :=
                [ {| param_name := u"Torque";
                     param_value := u"Retighten to 10Nm";
                     components := [u"Bolt"] |};
                  {| param_name := u"Torque";
                     param_value := u"Retighten to 10Nm";
                     components := [u"Bolt"] |} ] |}).
  vm_compute; reflexivity.
Defined.

(** C4: for every grid and defect column, the marker loop of
    [get_sous_ensembles] reads the rows 3 to 14 and yields, without ever
    raising, the trimmed non-empty labels (column 75) of the rows whose
    cell in the defect column trims to the marker U+00E7, each at its
    first occurrence and in row order; that list has no duplicate, it is
    what [get_sous_ensembles] returns when it is not empty, and whatever
    [get_sous_ensembles] returns has no duplicate. *)
Theorem sous_ensembles_first_occurrence_order
  (data : DataFrame) (defect_col : nat) :
  let found := first_occurrences (marked_labels data defect_col) in
  sous_ensembles_loop data defect_col = Ok found
  /\ NoDup found
  /\ (forall x, In x found <-> In x (marked_labels data defect_col))
  /\ (found <> [] -> get_sous_ensembles data defect_col = Ok found)
  /\ (forall l, get_sous_ensembles data defect_col = Ok l ->
                NoDup l /\ (l = found \/ (found = [] /\ length l <= 1))).
Proof.
  intros found.
  assert (Hloop : sous_ensembles_loop data defect_col = Ok found)
    by apply sous_ensembles_loop_spec.
  assert (ND : NoDup found).
  { unfold found. rewrite <- dedup_first_occurrences. apply dedup_NoDup. }
  split; [exact Hloop|]. split; [exact ND|]. split; [|split].
  - intros x. unfold found. rewrite <- dedup_first_occurrences.
    apply dedup_In.
  - intros Hne. unfold get_sous_ensembles. rewrite Hloop. cbn [bind].
    destruct found; [contradiction|reflexivity].
  - intros l. unfold get_sous_ensembles. rewrite Hloop. cbn [bind].
    destruct found as [|x t].
    + intros H. apply bind_Ok in H. destruct H as [sub_name [_ H]].
      destruct (notna sub_name); injection H as <-.
      * split; [repeat constructor; intros []|].
        right. split; [reflexivity|simpl; lia].
      * split; [constructor|]. left; reflexivity.
    + intros H. injection H as <-. split; [exact ND|left; reflexivity].
Qed.

Lemma sous_ensembles_first_occurrence_order_witness :
  get_sous_ensembles grid_two_sub_assemblies 80
  = Ok [u"Housing"; u"Frame"].
Proof.
  apply (proj1 (proj2 (proj2 (proj2
           (sous_ensembles_first_occurrence_order
              grid_two_sub_assemblies 80))))).
  vm_compute; discriminate.
Defined.

(** C5, as stated, fails: on [grid_marker_without_label] the marker loop
    finds a marker in row 5 of column 80, whose label cell is absent, and
    appends nothing; [get_sous_ensembles] then takes the fallback and
    returns the label of row 13, a row that holds no marker. *)
Lemma fallback_taken_after_a_marker_match :
  marked grid_marker_without_label [c_cedil] 5 80 = true
  /\ sous_ensembles_loop grid_marker_without_label 80 = Ok []
  /\ get_sous_ensembles grid_marker_without_label 80 = Ok [u"Frame"].
Proof. vm_compute. repeat split; reflexivity. Qed.

(** C5, amended: on a grid that has row 13 (or fewer than 76 columns),
    when the marker loop appends no name (no row 3-14 has both the marker
    in the defect column and a non-empty label, which is the case when no
    row has the marker), [get_sous_ensembles] returns the one-element list
    of the trimmed label of cell (13, 75) if that cell is present with a
    non-empty trimmed text, and the empty list if that cell is absent;
    when the loop appends a name, the fallback is not taken and the
    list of the loop is returned. *)
Theorem fallback_when_the_loop_appends_nothing
  (data : DataFrame) (defect_col : nat) :
  13 < len data \/ n_columns data <= 75 ->
  ((forall r, 3 <= r < 15 -> marked data [c_cedil] r defect_col = false) ->
   marked_labels data defect_col = [])
  /\ (marked_labels data defect_col = [] ->
      (cell_at data 13 75 = None ->
       get_sous_ensembles data defect_col = Ok [])
      /\ (forall s, cell_at data 13 75 = Some s -> strip s <> [] ->
                    get_sous_ensembles data defect_col = Ok [strip s]))
  /\ (marked_labels data defect_col <> [] ->
      get_sous_ensembles data defect_col
      = Ok (first_occurrences (marked_labels data defect_col))).
Proof.
  intros Hsize. split; [|split].
  - intros Hnone. unfold marked_labels. apply flat_map_nil.
    intros r Hr. apply in_range in Hr. rewrite Hnone by lia. reflexivity.
  - intros Hnil.
    rewrite get_sous_ensembles_spec by assumption.
    unfold resolved_sous_ensembles. rewrite Hnil. cbn [first_occurrences].
    split.
    + intros ->. reflexivity.
    + intros s -> _. reflexivity.
  - intros Hne.
    rewrite get_sous_ensembles_spec by assumption.
    unfold resolved_sous_ensembles.
    destruct (first_occurrences (marked_labels data defect_col)) eqn:E;
      [|reflexivity].
    exfalso. apply Hne.
    destruct (marked_labels data defect_col) as [|x t]; [reflexivity|].
    assert (Hx : In x (first_occurrences (x :: t))).
    { rewrite <- dedup_first_occurrences. apply dedup_In.
      left; reflexivity. }
    rewrite E in Hx. destruct Hx.
Qed.

Lemma fallback_when_the_loop_appends_nothing_witness :
  get_sous_ensembles grid_fallback 80 = Ok [u"Frame"].
Proof.
  refine (proj2 (proj1 (proj2
            (fallback_when_the_loop_appends_nothing grid_fallback 80 _)) _)
            (u"Frame") _ _).
  - left. vm_compute. lia.
  - vm_compute; reflexivity.
  - vm_compute; reflexivity.
  - vm_compute; discriminate.
Defined.

(** C6, as stated, fails: on [grid_marker_named_parametre] the parameter
    row 20 has a non-empty name, the marker string U+00AA, and a non-empty
    list of linked components, and no parameter is emitted for it. *)
Lemma marker_named_row_is_not_emitted :
  find_sub_row grid_marker_named_parametre (u"Housing") (range 3 14)
  = Ok (Some 5)
  /\ for_each (range 0 74)
       (component_cols_body grid_marker_named_parametre 5) [] = Ok [10]
  /\ iloc grid_marker_named_parametre 20 75 = Ok (Some ord_fem)
  /\ for_each [10] (linked_body grid_marker_named_parametre 20) []
     = Ok [u"Bolt"]
  /\ get_parametres grid_marker_named_parametre (u"Housing") = Ok [].
Proof. vm_compute. repeat split; reflexivity. Qed.

(** C6, amended: on a grid that has the sub-assembly rows (at least 14
    rows, or fewer than 76 columns), [get_parametres] returns, for the
    rows 17 to the end of the grid in row order, at most one parameter
    per row; a row contributes one exactly when its name cell (column 75)
    is present, its trimmed name is neither empty nor one of the four
    marker strings, and its list of linked components is not empty.  The
    linked components are, in column order over the columns 0-73 where the
    row of the sub-assembly holds one of the four markers and the
    parameter row trims to U+00E8 or U+00EA, the component names of row
    15; the parameter holds the trimmed name, the trimmed value of column
    76 (the empty string when absent) and the linked components. *)
Theorem get_parametres_row_by_row (data : DataFrame) (name : str) :
  14 <= len data \/ n_columns data <= 75 ->
  get_parametres data name = Ok (spec_parametres data name)
  /\ forall r row p,
       spec_row_parametre data r row = Some p <->
       exists n,
         cell_at data row 75 = Some n
         /\ spec_linked data r row <> []
         /\ strip n <> [] /\ ~ In (strip n) markers
         /\ p = {| param_name := strip n;
                   param_value := match cell_at data row 76 with
                                  | Some v => strip v
                                  | None => []
                                  end;
                   components := spec_linked data r row |}.
Proof.
  intros H. split; [apply get_parametres_spec; assumption|].
  intros r row p. unfold spec_row_parametre.
  destruct (cell_at data row 75) as [n|].
  - destruct (spec_linked data r row) as [|c linked].
    + split; [discriminate|].
      intros [n' [_ [Hl _]]]. contradiction.
    + destruct (truthy (strip n)) eqn:Et;
        destruct (mem (strip n) markers) eqn:Em; cbn [andb negb].
      * split; [discriminate|]. intros [n' [Hn [_ [_ [Hm _]]]]].
        injection Hn as <-. apply mem_In in Em. contradiction.
      * split.
        -- intros Hp; injection Hp as <-. exists n.
           split; [reflexivity|]. split; [discriminate|].
           split; [apply truthy_nonempty; assumption|].
           split; [apply mem_not_In; assumption|reflexivity].
        -- intros [n' [Hn [_ [_ [_ ->]]]]]. injection Hn as <-.
           reflexivity.
      * split; [discriminate|]. intros [n' [Hn [_ [Ht _]]]].
        injection Hn as <-. apply truthy_nonempty in Ht. congruence.
      * split; [discriminate|]. intros [n' [Hn [_ [Ht _]]]].
        injection Hn as <-. apply truthy_nonempty in Ht. congruence.
  - split; [discriminate|]. intros [n' [Hn _]]. discriminate.
Qed.

Lemma get_parametres_row_by_row_witness :
  get_parametres grid_housing (u"Housing")
  = Ok [ {| param_name := u"Torque";
            param_value := u"Retighten to 10Nm";
            components := [u"Bolt"] |} ].
Proof.
  refine (proj1 (get_parametres_row_by_row grid_housing (u"Housing") _)).
  left. vm_compute. lia.
Defined.

(** ** The filter without colours *)

(** Deduplicating a list in which every element of [L] is repeated, in the
    order of [L], gives [L] back. *)
Lemma uniq_from_copies (g : str -> list str) (L : list str) :
  forall seen,
    NoDup L ->
    (forall c, In c L -> g c <> [] /\ forall x, In x (g c) -> x = c) ->
    (forall c, In c L -> ~ In c seen) ->
    uniq_from seen (flat_map g L) = L.
Proof.
  induction L as [|c L IH]; intros seen ND Hg Hseen.
  - reflexivity.
  - cbn [flat_map]. rewrite uniq_from_app.
    inversion ND as [|? ? Hc ND']; subst.
    assert (Hone : uniq_from seen (g c) = [c]).
    { destruct (Hg c (or_introl eq_refl)) as [Hne Hall].
      destruct (g c) as [|y t]; [contradiction|].
      assert (y = c) by (apply Hall; left; reflexivity). subst y.
      cbn [uniq_from].
      replace (mem c seen) with false
        by (symmetry; apply mem_not_In, Hseen; left; reflexivity).
      f_equal. apply uniq_from_seen. intros x Hx.
      apply in_or_app. right. left. symmetry. apply Hall.
      right; assumption. }
    rewrite Hone. cbn [app]. f_equal. apply IH.
    + assumption.
    + intros c' Hc'. apply Hg. right; assumption.
    + intros c' Hc' Hin. apply in_app_or in Hin.
      destruct Hin as [Hin|[->|[]]].
      * apply (Hseen c'); [right; assumption|assumption].
      * contradiction.
Qed.

Lemma dedup_rounds (g : str -> list str) (L : list str) (ses : list str) :
  NoDup L ->
  (forall c, In c L -> g c <> [] /\ forall x, In x (g c) -> x = c) ->
  ses <> [] ->
  dedup (flat_map (fun _ : str => flat_map g L) ses) = L.
Proof.
  intros ND Hg Hses. destruct ses as [|se rest]; [contradiction|].
  rewrite dedup_uniq. cbn [flat_map]. rewrite uniq_from_app.
  rewrite (@uniq_from_copies g L [] ND Hg) by (intros c _ []).
  rewrite uniq_from_seen; [apply app_nil_r|].
  intros x Hx. apply in_flat_map in Hx. destruct Hx as [_ [_ Hx]].
  apply in_flat_map in Hx. destruct Hx as [c [Hc Hx]].
  destruct (Hg c Hc) as [_ Hall]. rewrite (Hall x Hx). exact Hc.
Qed.

Section Degraded.

Variable data : DataFrame.
Variable book : option Book.

(** Every colour lookup gives [None]. *)
Hypothesis unknown : forall se col, get_cell_color book se col = None.

Lemma validated_for_unknown (se comp : str) :
  validated_for book data se (get_cell_color book se 0) comp
  = flat_map (fun _ => [comp]) (name_columns data (strip comp)).
Proof.
  unfold validated_for. apply flat_map_ext. intros col.
  unfold get_component_color. rewrite !unknown. reflexivity.
Qed.

(** A component of the analysis names at least one column of row 15. *)
Lemma name_columns_of_component (name c : str) :
  In c (spec_composants data name) ->
  name_columns data (strip c) <> [].
Proof.
  intros Hc. apply spec_composants_In in Hc.
  destruct Hc as [_ [col [s [Hcol [Hs ->]]]]].
  assert (Hin : In col (name_columns data (strip (strip s)))).
  { unfold name_columns. apply in_flat_map. exists col.
    split; [apply in_range; lia|].
    rewrite Hs, strip_idem, eqb_refl. left; reflexivity. }
  intros E. rewrite E in Hin. destruct Hin.
Qed.

Lemma validated_unknown (defect_col : nat) (ses : list str) :
  validated book data defect_col ses
    (dedup (flat_map (spec_composants data) ses))
  = dedup (flat_map (spec_composants data) ses).
Proof.
  unfold validated.
  set (comps := dedup (flat_map (spec_composants data) ses)).
  destruct ses as [|se rest] eqn:Eses; [reflexivity|].
  rewrite <- Eses in *.
  rewrite (flat_map_ext
             (fun se => flat_map
                          (validated_for book data se
                             (get_cell_color book se defect_col)) comps)
             (fun _ => flat_map
                         (fun comp =>
                            flat_map (fun _ => [comp])
                              (name_columns data (strip comp)))
                         comps)).
  - apply dedup_rounds.
    + apply dedup_NoDup.
    + intros c Hc. split.
      * unfold comps in Hc. apply dedup_In, in_flat_map in Hc.
        destruct Hc as [name [_ Hc]].
        pose proof (name_columns_of_component _ _ Hc) as Hne.
        destruct (name_columns data (strip c)); [contradiction|].
        discriminate.
      * intros x Hx. apply in_flat_map in Hx.
        destruct Hx as [_ [_ [<-|[]]]]. reflexivity.
    + rewrite Eses; discriminate.
  - intros se'. apply flat_map_ext. intros comp.
    rewrite (unknown se' defect_col), <- (unknown se' 0).
    apply validated_for_unknown.
Qed.

End Degraded.

(** C1, as stated, fails: without a workbook every colour lookup gives
    [None], and on [grid_housing] the validated components of the defect
    "crack" are the components of the analysis, the list holding
    "Bolt", not the empty list. *)
Lemma unknown_colours_do_not_empty_the_filter :
  (forall se col, get_cell_color None se col = None)
  /\ get_filtered_hierarchy lower_latin1 re_compile_plain grid_housing None
       (u"crack")
     = Ok {| fh_defect_name := u"crack";
             fh_defect_column := Some 80;
             fh_sous_ensembles := [u"Housing"];
             bonnes_composants := [u"Bolt"];
             fh_parametres :=
               [ {| param_name := u"Torque";
                    param_value := u"Retighten to 10Nm";
                    components := [u"Bolt"] |} ] |}.
Proof. split; [reflexivity | vm_compute; reflexivity]. Qed.

(** C1, amended: when every colour lookup gives [None] and the analysis
    of a defect name succeeds, [get_filtered_hierarchy] returns and its
    validated components are the components of the analysis, all of them
    and in the same order (the colour of a component column and the
    reference colour are both [None], and compare equal); the analysis
    itself does not read the workbook. *)
Theorem unknown_colours_keep_every_component
  (lower : str -> str) (re_compile : str -> option (str -> bool))
  (data : DataFrame) (book : option Book) (name : str) (h : Hierarchy) :
  (forall se col, get_cell_color book se col = None) ->
  analyze_defect lower re_compile data name = Ok (AnalysisFound h) ->
  exists fh,
    get_filtered_hierarchy lower re_compile data book name = Ok fh
    /\ bonnes_composants fh = composants h
    /\ fh_sous_ensembles fh = sous_ensembles h.
Proof.
  intros Hunknown Ha. pose proof (analyze_defect_inv _ _ _ _ Ha) as Hf.
  pose proof (get_filtered_hierarchy_found _ _ _ book _ Hf) as Hg.
  rewrite (analyze_defect_found _ _ _ _ Hf) in Ha.
  injection Ha as <-. cbn [defect_column] in Hg. cbn zeta in Hg.
  eexists. split; [exact Hg|].
  cbn [bonnes_composants fh_sous_ensembles composants sous_ensembles].
  split; [|reflexivity].
  apply validated_unknown. assumption.
Qed.

Lemma unknown_colours_keep_every_component_witness :
  exists fh,
    get_filtered_hierarchy lower_latin1 re_compile_plain grid_housing None
      (u"crack") = Ok fh
    /\ bonnes_composants fh = [u"Bolt"]
    /\ fh_sous_ensembles fh = [u"Housing"].
Proof.
  apply (@unknown_colours_keep_every_component
           lower_latin1 re_compile_plain grid_housing None (u"crack")
           {| defect_name := u"crack";
              defect_column := 80;
              sous_ensembles := [u"Housing"];
              composants := [u"Bolt"];
              parametres :=
                [ {| param_name := u"Torque";
                     param_value := u"Retighten to 10Nm";
                     components := [u"Bolt"] |} ] |}).
  - intros se col. reflexivity.
  - vm_compute; reflexivity.
Defined.

(** ** Where the code leaves the specification *)

(** C2: [find_defect_column] does not keep to the columns from 78 on.  On
    [grid_housing] the name "bolt" is found in column 10, a component
    column, while [list_all_defects], which filters the columns below 78
    out, lists the defect of column 80 only. *)
Theorem find_defect_column_reads_every_column :
  find_defect_column lower_latin1 re_compile_plain grid_housing (u"bolt")
  = Ok (Some 10)
  /\ list_all_defects grid_housing = [(80, u"Crack")].
Proof. vm_compute. split; reflexivity. Qed.

(** C3: on [grid_ten_rows], ten rows of 76 columns, where the cells the
    resolvers ask for past row 9 are absent, [get_sous_ensembles],
    [get_composants] and [get_parametres] raise [IndexError]: the column
    of every access is checked against the width of the grid, the row of
    the label and fallback accesses is not. *)
Theorem resolvers_raise_on_a_short_grid :
  cell_at grid_ten_rows 13 75 = None
  /\ get_sous_ensembles grid_ten_rows 0 = Raise IndexError
  /\ get_composants grid_ten_rows (u"Housing") = Raise IndexError
  /\ get_parametres grid_ten_rows (u"Housing") = Raise IndexError.
Proof. vm_compute. repeat split; reflexivity. Qed.

(** C7: on [grid_fourteen_rows] the sub-assembly "Housing" is found in
    row 5 and holds a marker in column 10; reading the component name in
    row 15, which the grid does not have, raises [IndexError], where the
    rule of the specification gives the empty sequence. *)
Theorem get_composants_raises_without_row_15 :
  find_sub_row grid_fourteen_rows (u"Housing") (range 3 14) = Ok (Some 5)
  /\ marked grid_fourteen_rows markers 5 10 = true
  /\ get_composants grid_fourteen_rows (u"Housing") = Raise IndexError
  /\ spec_composants grid_fourteen_rows (u"Housing") = [].
Proof. vm_compute. repeat split; reflexivity. Qed.

(** ** Further properties of the resolvers *)

Lemma first_match_find (g : nat -> bool) (l : list nat) :
  match filter snd (combine l (map g l)) with
  | [] => None
  | (col, _) :: _ => Some col
  end = find g l.
Proof.
  induction l as [|x l IH]; simpl.
  - reflexivity.
  - destruct (g x); simpl; [reflexivity | exact IH].
Qed.

Lemma find_ext_in {A : Type} (f g : A -> bool) (l : list A) :
  (forall x, In x l -> f x = g x) -> find f l = find g l.
Proof.
  induction l as [|x l IH]; intros H; simpl.
  - reflexivity.
  - rewrite (H x) by (left; reflexivity). destruct (g x); [reflexivity|].
    apply IH. intros; apply H; right; assumption.
Qed.

(** [find_defect_column] on a grid that has row 15, for a name whose
    lower-cased text compiles as a pattern: the lowest column of the whole
    row whose cell is present and whose lower-cased text the pattern is
    found in; and [None] on a grid without row 15. *)
Theorem find_defect_column_lowest_match
  (lower : str -> str) (re_compile : str -> option (str -> bool))
  (data : DataFrame) (name : str) (search : str -> bool) :
  re_compile (lower name) = Some search ->
  (15 < len data ->
   find_defect_column lower re_compile data name
   = Ok (find (fun col => match cell_at data 15 col with
                          | Some s => search (lower s)
                          | None => false
                          end)
              (range 0 (n_columns data))))
  /\ (len data <= 15 ->
      find_defect_column lower re_compile data name = Ok None).
Proof.
  intros Hre. unfold find_defect_column. split; intros Hlen.
  - replace (len data <=? 15) with false
      by (symmetry; apply Nat.leb_gt; assumption).
    rewrite Hre. unfold iloc_row. rewrite map_map.
    rewrite first_match_find. f_equal.
    apply find_ext_in. intros col Hcol. apply in_range in Hcol.
    unfold cell_at.
    replace (15 <? len data) with true
      by (symmetry; apply Nat.ltb_lt; assumption).
    replace (col <? n_columns data) with true
      by (symmetry; apply Nat.ltb_lt; lia).
    cbn [andb]. destruct (cell_in data 15 col); reflexivity.
  - replace (len data <=? 15) with true
      by (symmetry; apply Nat.leb_le; assumption).
    reflexivity.
Qed.

Lemma find_defect_column_lowest_match_witness :
  find_defect_column lower_latin1 re_compile_plain grid_housing (u"crack")
  = Ok (Some 80).
Proof.
  refine (proj1 (@find_defect_column_lowest_match
                   lower_latin1 re_compile_plain grid_housing (u"crack")
                   (contains (u"crack")) _) _).
  - reflexivity.
  - vm_compute. lia.
Defined.

(** [get_composants] on a grid that has row 15 (or fewer than 76
    columns): the rule of the specification, and the empty sequence for a
    sub-assembly row without a marker in the columns 0-73. *)
Theorem get_composants_on_a_full_grid (data : DataFrame) (name : str) :
  16 <= len data \/ n_columns data <= 75 ->
  get_composants data name = Ok (spec_composants data name)
  /\ ((forall r col, sub_assembly_row data name = Some r -> col < 74 ->
                     marked data markers r col = false) ->
      get_composants data name = Ok [])
  /\ (sub_assembly_row data name = None ->
      get_composants data name = Ok []).
Proof.
  intros H. rewrite get_composants_spec by assumption.
  split; [reflexivity|]. unfold spec_composants. split.
  - intros Hnone. destruct (sub_assembly_row data name) as [r|];
      [|reflexivity].
    f_equal. apply flat_map_nil. intros col Hcol. apply in_range in Hcol.
    rewrite (Hnone r col) by (reflexivity || lia). reflexivity.
  - intros ->. reflexivity.
Qed.

Lemma get_composants_on_a_full_grid_witness :
  get_composants grid_housing (u"Housing") = Ok [u"Bolt"].
Proof.
  refine (proj1 (get_composants_on_a_full_grid grid_housing (u"Housing") _)).
  left. vm_compute. lia.
Defined.

(** Once the rows the layout names are there (16 rows, or a grid too
    narrow to hold the label column), no resolver raises; and
    [find_defect_column] never raises [IndexError], nor does the marker
    loop of [get_sous_ensembles] raise at all, whatever the grid. *)
Theorem resolvers_return_on_a_full_grid
  (lower : str -> str) (re_compile : str -> option (str -> bool))
  (data : DataFrame) :
  (forall name,
      find_defect_column lower re_compile data name <> Raise IndexError)
  /\ (forall col, exists l, sous_ensembles_loop data col = Ok l)
  /\ (16 <= len data \/ n_columns data <= 75 ->
      (forall col, exists l, get_sous_ensembles data col = Ok l)
      /\ (forall name, exists l, get_composants data name = Ok l)
      /\ (forall name, exists l, get_parametres data name = Ok l)).
Proof.
  split; [|split].
  - intros name. unfold find_defect_column.
    destruct (len data <=? 15); [discriminate|].
    destruct (re_compile (lower name)); discriminate.
  - intros col. eexists. apply sous_ensembles_loop_spec.
  - intros H. split; [|split].
    + intros col. eexists. apply get_sous_ensembles_spec. lia.
    + intros name. eexists. apply get_composants_spec. assumption.
    + intros name. eexists. apply get_parametres_spec. lia.
Qed.

(** Once [find_defect_column] has found a column, [analyze_defect] and
    [get_filtered_hierarchy] return, whatever the workbook: the same
    defect column and sub-assemblies in both, the components of the
    analysis without duplicate, and the validated components among the
    components of the analysis. *)
Theorem found_defect_is_analyzed
  (lower : str -> str) (re_compile : str -> option (str -> bool))
  (data : DataFrame) (book : option Book) (name : str) (col : nat) :
  find_defect_column lower re_compile data name = Ok (Some col) ->
  exists h fh,
    analyze_defect lower re_compile data name = Ok (AnalysisFound h)
    /\ get_filtered_hierarchy lower re_compile data book name = Ok fh
    /\ defect_column h = col /\ fh_defect_column fh = Some col
    /\ fh_sous_ensembles fh = sous_ensembles h
    /\ NoDup (composants h)
    /\ NoDup (bonnes_composants fh)
    /\ forall c, In c (bonnes_composants fh) -> In c (composants h).
Proof.
  intros Hf. eexists. eexists.
  split; [apply analyze_defect_found; exact Hf|].
  split; [apply (get_filtered_hierarchy_found _ _ _ book _ Hf)|].
  cbn [defect_column fh_defect_column fh_sous_ensembles sous_ensembles
       composants bonnes_composants].
  repeat split.
  - apply dedup_NoDup.
  - apply dedup_NoDup.
  - intros c Hc. unfold validated in Hc.
    apply (proj1 (dedup_In _ _)) in Hc.
    apply in_flat_map in Hc. destruct Hc as [se [_ Hc]].
    apply in_flat_map in Hc. destruct Hc as [comp [Hcomp Hc]].
    unfold validated_for in Hc. apply in_flat_map in Hc.
    destruct Hc as [k [_ Hc]].
    destruct (color_eqb _ _); [|destruct Hc].
    destruct Hc as [<-|[]]. exact Hcomp.
Qed.

Lemma found_defect_is_analyzed_witness :
  exists h fh,
    analyze_defect lower_latin1 re_compile_plain grid_housing (u"crack")
    = Ok (AnalysisFound h)
    /\ get_filtered_hierarchy lower_latin1 re_compile_plain grid_housing
         None (u"crack") = Ok fh
    /\ defect_column h = 80 /\ fh_defect_column fh = Some 80
    /\ fh_sous_ensembles fh = sous_ensembles h
    /\ NoDup (composants h)
    /\ NoDup (bonnes_composants fh)
    /\ forall c, In c (bonnes_composants fh) -> In c (composants h).
Proof.
  apply (@found_defect_is_analyzed
           lower_latin1 re_compile_plain grid_housing None (u"crack") 80).
  vm_compute; reflexivity.
Defined.

(** ** The list of the defects *)

Lemma in_combine_map {A B : Type} (g : A -> B) (l : list A) (a : A) (b : B) :
  In (a, b) (combine l (map g l)) -> In a l /\ b = g a.
Proof.
  induction l as [|x l IH]; simpl; [intros []|].
  intros [H|H].
  - injection H as <- <-. auto.
  - destruct (IH H). auto.
Qed.

Lemma sorted_filter_combine {B : Type} (p : nat * B -> bool) (n : nat) :
  forall a (l : list B),
    StronglySorted lt (map fst (filter p (combine (seq a n) l))).
Proof.
  induction n as [|n IH]; intros a l; simpl.
  - constructor.
  - destruct l as [|x l]; simpl; [constructor|].
    destruct (p (a, x)); [|apply IH].
    simpl. constructor; [apply IH|].
    apply Forall_forall. intros y Hy. apply in_map_iff in Hy.
    destruct Hy as [[c v] [<- Hy]]. apply filter_In in Hy.
    destruct Hy as [Hy _]. apply in_combine_l in Hy.
    apply in_seq in Hy. simpl. lia.
Qed.

Lemma filter_twice {A : Type} (p q : A -> bool) (l : list A) :
  filter q (filter p l) = filter (fun x => p x && q x) l.
Proof.
  induction l as [|x l IH]; simpl; [reflexivity|].
  destruct (p x); simpl; [destruct (q x)|]; rewrite IH; reflexivity.
Qed.

(** [list_all_defects] lists columns in strictly increasing order, all
    from 78 on, each with the trimmed text of its cell of row 15, which
    is present and not blank; and every such column is listed. *)
Theorem list_all_defects_sorted_nonblank (data : DataFrame) :
  StronglySorted lt (map fst (list_all_defects data))
  /\ forall col nm,
       In (col, nm) (list_all_defects data) <->
       78 <= col
       /\ exists s, cell_at data 15 col = Some s
                    /\ nm = strip s /\ nm <> [].
Proof.
  unfold list_all_defects.
  destruct (len data <=? 15) eqn:E.
  - apply Nat.leb_le in E. split; [constructor|].
    intros col nm. split; [intros []|].
    intros [_ [s [Hs _]]]. apply cell_at_Some in Hs. lia.
  - apply Nat.leb_gt in E. cbv zeta. rewrite filter_twice. split.
    + rewrite map_map. cbn [fst]. unfold range. apply sorted_filter_combine.
    + intros col nm. rewrite in_map_iff. split.
      * intros [[c v] [Heq Hin]]. cbn [fst snd] in Heq.
        injection Heq as <- <-. apply filter_In in Hin.
        destruct Hin as [Hin Hp]. cbn [fst snd] in Hp.
        unfold iloc_row in Hin. apply in_combine_map in Hin.
        destruct Hin as [Hc ->]. apply in_range in Hc.
        apply andb_true_iff in Hp. destruct Hp as [Hp H78].
        apply andb_true_iff in Hp. destruct Hp as [Hna Hne].
        apply Nat.leb_le in H78. split; [assumption|].
        unfold cell_at.
        replace (15 <? len data) with true
          by (symmetry; apply Nat.ltb_lt; assumption).
        replace (c <? n_columns data) with true
          by (symmetry; apply Nat.ltb_lt; lia).
        cbn [andb]. destruct (cell_in data 15 c) as [s|]; [|discriminate].
        exists s. split; [reflexivity|]. split; [reflexivity|].
        apply eqb_neq. apply negb_true_iff. exact Hne.
      * intros [H78 [s [Hs [-> Hne]]]].
        pose proof (cell_at_Some _ _ _ Hs) as [_ Hc].
        exists (col, Some s). split; [reflexivity|].
        apply filter_In. split.
        -- unfold iloc_row.
           replace (Some s) with (cell_in data 15 col).
           ++ clear Hs. unfold range.
              assert (Hin : In col (seq 0 (n_columns data - 0)))
                by (apply in_seq; lia).
              induction (seq 0 (n_columns data - 0)) as [|x l IH];
                [destruct Hin|].
              simpl. destruct Hin as [->|Hin]; [left; reflexivity|].
              right. apply IH. assumption.
           ++ unfold cell_at in Hs.
              destruct ((15 <? len data) && (col <? n_columns data));
                [assumption|discriminate].
        -- cbn [fst snd notna py_str].
           replace (78 <=? col) with true
             by (symmetry; apply Nat.leb_le; assumption).
           apply eqb_neq in Hne. rewrite Hne. reflexivity.
Qed.

(** * Further properties of the analyzer *)

(** ** What the entry points raise *)

(** [analyze_defect] and [get_filtered_hierarchy] raise nothing but the
    error of a name that does not compile as a pattern: on every grid,
    short ones included, they return when the lower-cased name compiles
    (or the grid has no row 15), and they raise [re.error] when the grid
    has row 15 and the name does not compile. *)
Theorem entry_points_raise_only_re_error
  (lower : str -> str) (re_compile : str -> option (str -> bool))
  (data : DataFrame) (book : option Book) (name : str) :
  (re_compile (lower name) <> None \/ len data <= 15 ->
   exists a fh,
     analyze_defect lower re_compile data name = Ok a
     /\ get_filtered_hierarchy lower re_compile data book name = Ok fh)
  /\ (re_compile (lower name) = None -> 15 < len data ->
      analyze_defect lower re_compile data name = Raise ReError
      /\ get_filtered_hierarchy lower re_compile data book name
         = Raise ReError).
Proof.
  split.
  - intros H.
    assert (Hf : exists c, find_defect_column lower re_compile data name
                           = Ok c).
    { unfold find_defect_column.
      destruct (len data <=? 15) eqn:E; [eexists; reflexivity|].
      apply Nat.leb_gt in E.
      destruct (re_compile (lower name)); [eexists; reflexivity|].
      destruct H as [H|H]; [contradiction|lia]. }
    destruct Hf as [[col|] Hf].
    + eexists. eexists. split.
      * apply analyze_defect_found. exact Hf.
      * apply (get_filtered_hierarchy_found _ _ _ book _ Hf).
    + eexists. eexists.
      unfold get_filtered_hierarchy, analyze_defect. rewrite Hf.
      split; reflexivity.
  - intros Hre Hlen.
    assert (Hf : find_defect_column lower re_compile data name
                 = Raise ReError).
    { unfold find_defect_column.
      replace (len data <=? 15) with false
        by (symmetry; apply Nat.leb_gt; assumption).
      rewrite Hre. reflexivity. }
    unfold get_filtered_hierarchy, analyze_defect. rewrite Hf.
    split; reflexivity.
Qed.

Lemma entry_points_raise_only_re_error_witness :
  exists a fh,
    analyze_defect lower_latin1 re_compile_plain grid_ten_rows (u"crack")
    = Ok a
    /\ get_filtered_hierarchy lower_latin1 re_compile_plain grid_ten_rows
         None (u"crack") = Ok fh.
Proof.
  refine (proj1 (entry_points_raise_only_re_error
                   lower_latin1 re_compile_plain grid_ten_rows None
                   (u"crack")) _).
  left. discriminate.
Defined.

(** ** The names the resolvers return *)

Lemma component_name_clean (data : DataFrame) (col : nat) (c : str) :
  component_name data col = Some c ->
  c <> [] /\ ~ In c markers /\ strip c = c.
Proof.
  unfold component_name.
  destruct (cell_at data 15 col) as [s|]; [|discriminate].
  destruct (mem (strip s) markers) eqn:Em; cbn [negb andb]; [discriminate|].
  destruct (truthy (strip s)) eqn:Et; [|discriminate].
  intros H; injection H as <-.
  split; [apply truthy_nonempty; assumption|].
  split; [apply mem_not_In; assumption|apply strip_idem].
Qed.

Lemma spec_composants_clean (data : DataFrame) (name c : str) :
  In c (spec_composants data name) ->
  c <> [] /\ ~ In c markers /\ strip c = c.
Proof.
  unfold spec_composants.
  destruct (sub_assembly_row data name) as [r|]; [|intros []].
  intros Hc. apply in_flat_map in Hc. destruct Hc as [col [_ Hc]].
  destruct (marked data markers r col); [|destruct Hc].
  destruct (component_name data col) as [c'|] eqn:E; [|destruct Hc].
  destruct Hc as [<-|[]]. apply (component_name_clean _ _ E).
Qed.

(** The linked components of a parameter row are components of the
    sub-assembly. *)
Lemma spec_linked_incl (data : DataFrame) (name : str) (r row : nat)
  (c : str) :
  sub_assembly_row data name = Some r ->
  In c (spec_linked data r row) -> In c (spec_composants data name).
Proof.
  intros Hr Hc. unfold spec_composants. rewrite Hr.
  unfold spec_linked in Hc. apply in_flat_map in Hc.
  destruct Hc as [col [Hcol Hc]]. apply in_flat_map. exists col.
  split; [assumption|].
  destruct (marked data markers r col); [|destruct Hc].
  destruct (marked data param_markers row col); [exact Hc|destruct Hc].
Qed.

Lemma spec_parametres_In (data : DataFrame) (name : str) (p : Parametre) :
  In p (spec_parametres data name) ->
  17 < len data
  /\ components p <> []
  /\ (forall c, In c (components p) -> In c (spec_composants data name))
  /\ param_name p <> [] /\ ~ In (param_name p) markers
  /\ strip (param_name p) = param_name p
  /\ strip (param_value p) = param_value p.
Proof.
  unfold spec_parametres. destruct (truthy name); [|intros []].
  destruct (sub_assembly_row data name) as [r|] eqn:Er; [|intros []].
  intros Hp. apply in_flat_map in Hp. destruct Hp as [row [Hrow Hp]].
  apply in_range in Hrow. split; [lia|].
  unfold spec_row_parametre in Hp.
  destruct (cell_at data row 75) as [n|]; [|destruct Hp].
  destruct (spec_linked data r row) as [|c0 linked] eqn:El; [destruct Hp|].
  destruct (truthy (strip n)) eqn:Et; [|destruct Hp].
  destruct (mem (strip n) markers) eqn:Em; [destruct Hp|].
  cbn [andb negb opt_list] in Hp. destruct Hp as [<-|[]].
  cbn [components param_name param_value].
  split; [discriminate|]. split.
  - intros c Hc. apply (spec_linked_incl _ _ row _ Er). rewrite El.
    exact Hc.
  - split; [apply truthy_nonempty; assumption|].
    split; [apply mem_not_In; assumption|].
    split; [apply strip_idem|].
    destruct (cell_at data row 76); [apply strip_idem|reflexivity].
Qed.

(** Without row 17 there is no parameter, whatever else happens. *)
Lemma get_parametres_short (data : DataFrame) (name : str)
  (ps : list Parametre) :
  len data <= 17 -> get_parametres data name = Ok ps -> ps = [].
Proof.
  intros Hlen. unfold get_parametres.
  destruct (negb (truthy name)); [intros H; injection H as <-; reflexivity|].
  intros H. apply bind_Ok in H. destruct H as [[r|] [_ H]].
  - apply bind_Ok in H. destruct H as [cols [_ H]].
    unfold range in H. replace (len data - 17) with 0 in H by lia.
    simpl in H. injection H as <-. reflexivity.
  - injection H as <-. reflexivity.
Qed.

(** The parameters of a sub-assembly link components of that
    sub-assembly only: whenever [get_composants] and [get_parametres]
    return for the same name, every parameter has a list of linked
    components that is not empty and holds only components that
    [get_composants] returns, and a trimmed name that is neither empty
    nor a marker string. *)
Theorem parametres_link_components_of_the_sub_assembly
  (data : DataFrame) (name : str) (cs : list str) (ps : list Parametre) :
  get_composants data name = Ok cs ->
  get_parametres data name = Ok ps ->
  forall p, In p ps ->
    components p <> []
    /\ (forall c, In c (components p) -> In c cs)
    /\ param_name p <> [] /\ ~ In (param_name p) markers
    /\ strip (param_name p) = param_name p.
Proof.
  intros Hc Hp p Hin.
  destruct (Nat.le_gt_cases (len data) 17) as [Hs|Hl].
  - rewrite (@get_parametres_short data name ps Hs Hp) in Hin.
    destruct Hin.
  - rewrite get_composants_spec in Hc by lia. injection Hc as <-.
    rewrite get_parametres_spec in Hp by lia. injection Hp as <-.
    apply spec_parametres_In in Hin. tauto.
Qed.

Lemma parametres_link_components_of_the_sub_assembly_witness :
  components {| param_name := u"Torque";
                param_value := u"Retighten to 10Nm";
                components := [u"Bolt"] |} <> []
  /\ (forall c, In c [u"Bolt"] -> In c [u"Bolt"])
  /\ u"Torque" <> [] /\ ~ In (u"Torque") markers
  /\ strip (u"Torque") = u"Torque".
Proof.
  apply (@parametres_link_components_of_the_sub_assembly
           grid_housing (u"Housing") [u"Bolt"]
           [ {| param_name := u"Torque";
                param_value := u"Retighten to 10Nm";
                components := [u"Bolt"] |} ]).
  - vm_compute; reflexivity.
  - vm_compute; reflexivity.
  - left; reflexivity.
Defined.

(** ** The components of an analysis *)

(** The components of an analysis are what [get_composants] returns for
    the sub-assemblies of the defect column, in the order of the
    sub-assemblies, each name kept at its first occurrence; every one is
    a trimmed name that is neither empty nor a marker string. *)
Theorem composants_are_first_occurrences
  (lower : str -> str) (re_compile : str -> option (str -> bool))
  (data : DataFrame) (name : str) (h : Hierarchy) :
  analyze_defect lower re_compile data name = Ok (AnalysisFound h) ->
  get_sous_ensembles data (defect_column h) = Ok (sous_ensembles h)
  /\ (exists css,
         Forall2 (fun se cs => get_composants data se = Ok cs)
                 (sous_ensembles h) css
         /\ composants h = first_occurrences (concat css))
  /\ forall c, In c (composants h) ->
               c <> [] /\ ~ In c markers /\ strip c = c.
Proof.
  intros Ha. pose proof (analyze_defect_inv _ _ _ _ Ha) as Hf.
  pose proof (find_defect_column_found _ _ _ _ Hf) as H15.
  rewrite (analyze_defect_found _ _ _ _ Hf) in Ha.
  injection Ha as <-. cbn [composants sous_ensembles defect_column].
  split; [apply get_sous_ensembles_spec; lia|]. split.
  - exists (map (spec_composants data)
                (resolved_sous_ensembles data (defect_column h))).
    split.
    + induction (resolved_sous_ensembles data (defect_column h))
        as [|se ses IH]; simpl; constructor.
      * apply get_composants_spec; lia.
      * exact IH.
    + rewrite <- flat_map_concat_map. apply dedup_first_occurrences.
  - intros c Hc. apply (proj1 (dedup_In _ _)) in Hc.
    apply in_flat_map in Hc. destruct Hc as [se [_ Hc]].
    apply (spec_composants_clean _ _ _ Hc).
Qed.

Lemma composants_are_first_occurrences_witness :
  get_sous_ensembles grid_two_sub_assemblies 80
  = Ok [u"Housing"; u"Frame"]
  /\ (exists css,
         Forall2 (fun se cs => get_composants grid_two_sub_assemblies se
                               = Ok cs)
                 [u"Housing"; u"Frame"] css
         /\ [u"Bolt"] = first_occurrences (concat css))
  /\ forall c, In c [u"Bolt"] ->
               c <> [] /\ ~ In c markers /\ strip c = c.
Proof.
  apply (@composants_are_first_occurrences
           lower_latin1 re_compile_plain grid_two_sub_assemblies
           (u"crack")
           {| defect_name := u"crack";
              defect_column := 80;
              sous_ensembles := [u"Housing"; u"Frame"];
              composants := [u"Bolt"];
              parametres :=
                [ {| param_name := u"Torque";
                     param_value := u"Retighten to 10Nm";
                     components := [u"Bolt"] |};
                  {| param_name := u"Torque";
                     param_value := u"Retighten to 10Nm";
                     components := [u"Bolt"] |} ] |}).
  vm_compute; reflexivity.
Defined.

(** ** The parameters when the colours are unknown *)

Lemma filter_all {A : Type} (f : A -> bool) (l : list A) :
  (forall x, In x l -> f x = true) -> filter f l = l.
Proof.
  induction l as [|x l IH]; intros H; simpl.
  - reflexivity.
  - rewrite (H x) by (left; reflexivity). f_equal. apply IH.
    intros; apply H; right; assumption.
Qed.

Lemma restrict_all (good : list str) (p : Parametre) :
  (forall c, In c (components p) -> In c good) -> restrict good p = p.
Proof.
  intros H. unfold restrict. rewrite filter_all.
  - destruct p; reflexivity.
  - intros c Hc. apply mem_In. apply H. exact Hc.
Qed.

Lemma meets_all (good : list str) (p : Parametre) :
  components p <> [] ->
  (forall c, In c (components p) -> In c good) -> meets good p = true.
Proof.
  intros Hne H. unfold meets. destruct (components p) as [|c t];
    [contradiction|].
  simpl. replace (mem c good) with true; [reflexivity|].
  symmetry. apply mem_In. apply H. left; reflexivity.
Qed.

Lemma map_restrict_filter_meets (good : list str) (l : list Parametre) :
  (forall p, In p l ->
             components p <> []
             /\ forall c, In c (components p) -> In c good) ->
  map (restrict good) (filter (meets good) l) = l.
Proof.
  induction l as [|p l IH]; intros H; simpl.
  - reflexivity.
  - destruct (H p (or_introl eq_refl)) as [Hne Hin].
    rewrite meets_all by assumption. simpl.
    rewrite restrict_all by assumption. f_equal. apply IH.
    intros; apply H; right; assumption.
Qed.

(** When every colour lookup gives [None] and the analysis of a defect
    name succeeds, the filter keeps every parameter as it is: the
    parameters of the filtered hierarchy are the parameters of the
    analysis, in the same order and with the same linked components. *)
Theorem unknown_colours_keep_every_parametre
  (lower : str -> str) (re_compile : str -> option (str -> bool))
  (data : DataFrame) (book : option Book) (name : str) (h : Hierarchy) :
  (forall se col, get_cell_color book se col = None) ->
  analyze_defect lower re_compile data name = Ok (AnalysisFound h) ->
  exists fh,
    get_filtered_hierarchy lower re_compile data book name = Ok fh
    /\ fh_parametres fh = parametres h.
Proof.
  intros Hunknown Ha. pose proof (analyze_defect_inv _ _ _ _ Ha) as Hf.
  pose proof (get_filtered_hierarchy_found _ _ _ book _ Hf) as Hg.
  rewrite (analyze_defect_found _ _ _ _ Hf) in Ha.
  injection Ha as <-. cbn [defect_column] in Hg. cbn zeta in Hg.
  eexists. split; [exact Hg|].
  cbn [fh_parametres parametres].
  rewrite validated_unknown by assumption.
  rewrite filter_parametres_spec.
  apply map_restrict_filter_meets.
  intros p Hp. apply in_flat_map in Hp. destruct Hp as [se [Hse Hp]].
  apply spec_parametres_In in Hp.
  destruct Hp as [_ [Hne [Hin _]]]. split; [exact Hne|].
  intros c Hc. apply dedup_In. apply in_flat_map. exists se.
  split; [exact Hse|apply Hin; exact Hc].
Qed.

Lemma unknown_colours_keep_every_parametre_witness :
  exists fh,
    get_filtered_hierarchy lower_latin1 re_compile_plain grid_housing None
      (u"crack") = Ok fh
    /\ fh_parametres fh
       = [ {| param_name := u"Torque";
              param_value := u"Retighten to 10Nm";
              components := [u"Bolt"] |} ].
Proof.
  apply (@unknown_colours_keep_every_parametre
           lower_latin1 re_compile_plain grid_housing None (u"crack")
           {| defect_name := u"crack";
              defect_column := 80;
              sous_ensembles := [u"Housing"];
              composants := [u"Bolt"];
              parametres :=
                [ {| param_name := u"Torque";
                     param_value := u"Retighten to 10Nm";
                     components := [u"Bolt"] |} ] |}).
  - intros se col. reflexivity.
  - vm_compute; reflexivity.
Defined.

(** ** The colour filter with a workbook *)

Lemma name_columns_In (data : DataFrame) (comp_name : str) (k : nat) :
  In k (name_columns data comp_name) <->
  k < 74 /\ exists s, cell_at data 15 k = Some s /\ strip s = comp_name.
Proof.
  unfold name_columns. rewrite in_flat_map. split.
  - intros [col [Hcol Hk]]. apply in_range in Hcol.
    destruct (cell_at data 15 col) as [s|] eqn:Es; [|destruct Hk].
    destruct (eqb (strip s) comp_name) eqn:E; [|destruct Hk].
    destruct Hk as [<-|[]]. apply eqb_eq in E.
    split; [lia|]. exists s. split; assumption.
  - intros [Hk [s [Hs Hn]]]. exists k.
    split; [apply in_range; lia|].
    rewrite Hs. replace (eqb (strip s) comp_name) with true.
    + left; reflexivity.
    + symmetry. apply eqb_eq. exact Hn.
Qed.

(** A component is validated exactly when it is a component of the
    analysis and, for one of the sub-assemblies, one of the columns 0-73
    whose cell of row 15 trims to its name has the colour that the
    sub-assembly has at the defect column; reading the colour of the
    sub-assembly through the cache changes nothing. *)
Theorem validated_components_by_colour
  (lower : str -> str) (re_compile : str -> option (str -> bool))
  (data : DataFrame) (book : option Book) (name : str)
  (h : Hierarchy) (fh : FilteredHierarchy) :
  analyze_defect lower re_compile data name = Ok (AnalysisFound h) ->
  get_filtered_hierarchy lower re_compile data book name = Ok fh ->
  forall c,
    In c (bonnes_composants fh) <->
    In c (composants h)
    /\ exists se k s,
         In se (sous_ensembles h) /\ k < 74
         /\ cell_at data 15 k = Some s /\ strip s = c
         /\ color_eqb (get_cell_color book se k)
                      (get_cell_color book se (defect_column h)) = true.
Proof.
  intros Ha Hg c. pose proof (analyze_defect_inv _ _ _ _ Ha) as Hf.
  rewrite (get_filtered_hierarchy_found _ _ _ book _ Hf) in Hg.
  rewrite (analyze_defect_found _ _ _ _ Hf) in Ha.
  injection Ha as <-. cbn [defect_column] in Hg. cbn zeta in Hg.
  injection Hg as <-.
  cbn [bonnes_composants composants sous_ensembles defect_column].
  set (ses := resolved_sous_ensembles data (defect_column h)).
  set (comps := dedup (flat_map (spec_composants data) ses)).
  assert (Hclean : forall x, In x comps -> strip x = x).
  { intros x Hx. unfold comps in Hx. apply (proj1 (dedup_In _ _)) in Hx.
    apply in_flat_map in Hx. destruct Hx as [se [_ Hx]].
    apply (spec_composants_clean _ _ _ Hx). }
  unfold validated. rewrite dedup_In, in_flat_map. split.
  - intros [se [Hse Hc]]. apply in_flat_map in Hc.
    destruct Hc as [comp [Hcomp Hc]]. unfold validated_for in Hc.
    apply in_flat_map in Hc. destruct Hc as [k [Hk Hc]].
    unfold get_component_color in Hc.
    destruct (color_eqb (get_cell_color book se k)
                (get_cell_color book se (defect_column h))) eqn:E;
      [|destruct Hc].
    destruct Hc as [<-|[]]. split; [exact Hcomp|].
    apply name_columns_In in Hk. destruct Hk as [Hk [s [Hs Hn]]].
    exists se, k, s. rewrite (Hclean _ Hcomp) in Hn. tauto.
  - intros [Hcomp [se [k [s [Hse [Hk [Hs [Hn E]]]]]]]].
    exists se. split; [exact Hse|]. apply in_flat_map. exists c.
    split; [exact Hcomp|]. unfold validated_for. apply in_flat_map.
    exists k. split.
    + apply name_columns_In. split; [exact Hk|]. exists s.
      rewrite (Hclean _ Hcomp). tauto.
    + unfold get_component_color. rewrite E. left; reflexivity.
Qed.

Lemma validated_components_by_colour_witness :
  In (u"Bolt") [u"Bolt"] <->
  In (u"Bolt") [u"Bolt"; u"Nut"]
  /\ exists se k s,
       In se [u"Housing"] /\ k < 74
       /\ cell_at grid_two_columns 15 k = Some s /\ strip s = u"Bolt"
       /\ color_eqb
            (get_cell_color (Some (book_housing [40; 80])) se k)
            (get_cell_color (Some (book_housing [40; 80])) se 80)
          = true.
Proof.
  refine (@validated_components_by_colour
            lower_latin1 re_compile_plain grid_two_columns
            (Some (book_housing [40; 80])) (u"crack")
            {| defect_name := u"crack";
               defect_column := 80;
               sous_ensembles := [u"Housing"];
               composants := [u"Bolt"; u"Nut"];
               parametres := [] |}
            {| fh_defect_name := u"crack";
               fh_defect_column := Some 80;
               fh_sous_ensembles := [u"Housing"];
               bonnes_composants := [u"Bolt"];
               fh_parametres := [] |} _ _ (u"Bolt")).
  - vm_compute; reflexivity.
  - vm_compute; reflexivity.
Defined.

Lemma uniq_from_skip (seen t rest : list str) :
  (forall x, In x t -> In x seen) ->
  uniq_from seen (t ++ rest) = uniq_from seen rest.
Proof.
  intros H. rewrite uniq_from_app, uniq_from_seen by assumption.
  rewrite app_nil_r. reflexivity.
Qed.

(** Repetitions do not change what a deduplicating loop keeps. *)
Lemma uniq_from_collapse (g : str -> list str) :
  (forall c x, In x (g c) -> x = c) ->
  forall L seen,
    uniq_from seen (flat_map g L)
    = uniq_from seen
        (filter (fun c => match g c with [] => false | _ :: _ => true end)
                L).
Proof.
  intros Hg. induction L as [|c L IH]; intros seen.
  - reflexivity.
  - cbn [flat_map filter]. destruct (g c) as [|y t] eqn:E.
    + apply IH.
    + assert (y = c) by (apply (Hg c); rewrite E; left; reflexivity).
      subst y.
      assert (Ht : forall x, In x t -> x = c)
        by (intros x Hx; apply (Hg c); rewrite E; right; assumption).
      cbn [app uniq_from]. destruct (mem c seen) eqn:Em.
      * rewrite uniq_from_skip; [apply IH|].
        intros x Hx. rewrite (Ht x Hx). apply mem_In. exact Em.
      * f_equal. rewrite uniq_from_skip; [apply IH|].
        intros x Hx. rewrite (Ht x Hx). apply in_or_app. right.
        left; reflexivity.
Qed.

Lemma uniq_from_flat_map_ext {A : Type} (F G : A -> list str)
  (l : list A) :
  (forall x, In x l -> forall seen,
      uniq_from seen (F x) = uniq_from seen (G x)) ->
  forall seen,
    uniq_from seen (flat_map F l) = uniq_from seen (flat_map G l).
Proof.
  induction l as [|x l IH]; intros H seen.
  - reflexivity.
  - cbn [flat_map]. rewrite !uniq_from_app.
    rewrite (H x (or_introl eq_refl)). f_equal. apply IH.
    intros; apply H; right; assumption.
Qed.

Lemma uniq_from_NoDup_id (l : list str) :
  forall seen,
    NoDup l -> (forall x, In x l -> ~ In x seen) -> uniq_from seen l = l.
Proof.
  induction l as [|x l IH]; intros seen ND Hseen.
  - reflexivity.
  - inversion ND as [|? ? Hx ND']; subst. cbn [uniq_from].
    replace (mem x seen) with false
      by (symmetry; apply mem_not_In, Hseen; left; reflexivity).
    f_equal. apply IH; [assumption|].
    intros y Hy Hin. apply in_app_or in Hin.
    destruct Hin as [Hin|[->|[]]].
    + apply (Hseen y); [right; assumption|assumption].
    + contradiction.
Qed.

Lemma validated_for_nonempty (book : option Book) (data : DataFrame)
  (se : str) (idx : option Z) (comp : str) :
  match validated_for book data se idx comp with
  | [] => false
  | _ :: _ => true
  end
  = existsb (fun k => color_eqb (get_component_color book se k) idx)
            (name_columns data (strip comp)).
Proof.
  unfold validated_for.
  induction (name_columns data (strip comp)) as [|k l IH]; simpl.
  - reflexivity.
  - destruct (color_eqb (get_component_color book se k) idx); simpl.
    + reflexivity.
    + exact IH.
Qed.

(** The validated components in their order: for each sub-assembly in
    turn, the components of the analysis that pass the colour test for
    it, in the order of the components, each name kept at its first
    occurrence.  With a single sub-assembly they are the components of
    the analysis that pass the test, in the same order. *)
Theorem validated_components_in_order
  (lower : str -> str) (re_compile : str -> option (str -> bool))
  (data : DataFrame) (book : option Book) (name : str)
  (h : Hierarchy) (fh : FilteredHierarchy) :
  analyze_defect lower re_compile data name = Ok (AnalysisFound h) ->
  get_filtered_hierarchy lower re_compile data book name = Ok fh ->
  bonnes_composants fh
  = first_occurrences
      (flat_map
         (fun se => filter (colour_valid book data (defect_column h) se)
                           (composants h))
         (sous_ensembles h))
  /\ forall se,
       sous_ensembles h = [se] ->
       bonnes_composants fh
       = filter (colour_valid book data (defect_column h) se)
                (composants h).
Proof.
  intros Ha Hg. pose proof (analyze_defect_inv _ _ _ _ Ha) as Hf.
  rewrite (get_filtered_hierarchy_found _ _ _ book _ Hf) in Hg.
  rewrite (analyze_defect_found _ _ _ _ Hf) in Ha.
  injection Ha as <-. cbn [defect_column] in Hg. cbn zeta in Hg.
  injection Hg as <-.
  cbn [bonnes_composants composants sous_ensembles defect_column].
  set (ses := resolved_sous_ensembles data (defect_column h)).
  set (comps := dedup (flat_map (spec_composants data) ses)).
  assert (Heq : validated book data (defect_column h) ses comps
                = first_occurrences
                    (flat_map
                       (fun se =>
                          filter (colour_valid book data (defect_column h) se)
                                 comps)
                       ses)).
  { unfold validated. rewrite <- dedup_first_occurrences, !dedup_uniq.
    apply uniq_from_flat_map_ext. intros se _ seen.
    rewrite uniq_from_collapse.
    - f_equal. apply filter_ext. intros comp.
      apply validated_for_nonempty.
    - intros comp x Hx. unfold validated_for in Hx.
      apply in_flat_map in Hx. destruct Hx as [k [_ Hx]].
      destruct (color_eqb _ _); [|destruct Hx].
      destruct Hx as [<-|[]]. reflexivity. }
  split; [exact Heq|].
  intros se Hse. rewrite Heq, Hse. cbn [flat_map]. rewrite app_nil_r.
  rewrite <- dedup_first_occurrences, dedup_uniq.
  apply uniq_from_NoDup_id.
  - apply NoDup_filter. apply dedup_NoDup.
  - intros x _ [].
Qed.

Lemma validated_components_in_order_witness :
  [u"Bolt"]
  = first_occurrences
      (flat_map
         (fun se => filter (colour_valid (Some (book_housing [40; 80]))
                              grid_two_columns 80 se)
                           [u"Bolt"; u"Nut"])
         [u"Housing"])
  /\ forall se,
       [u"Housing"] = [se] ->
       [u"Bolt"]
       = filter (colour_valid (Some (book_housing [40; 80]))
                   grid_two_columns 80 se)
                [u"Bolt"; u"Nut"].
Proof.
  apply (@validated_components_in_order
           lower_latin1 re_compile_plain grid_two_columns
           (Some (book_housing [40; 80])) (u"crack")
           {| defect_name := u"crack";
              defect_column := 80;
              sous_ensembles := [u"Housing"];
              composants := [u"Bolt"; u"Nut"];
              parametres := [] |}
           {| fh_defect_name := u"crack";
              fh_defect_column := Some 80;
              fh_sous_ensembles := [u"Housing"];
              bonnes_composants := [u"Bolt"];
              fh_parametres := [] |}).
  - vm_compute; reflexivity.
  - vm_compute; reflexivity.
Defined.

(** ** The sub-assemblies and their rows *)

Lemma marked_labels_In (data : DataFrame) (defect_col : nat) (x : str) :
  In x (marked_labels data defect_col) <->
  exists r, 3 <= r < 15
            /\ marked data [c_cedil] r defect_col = true
            /\ label data r = Some x.
Proof.
  unfold marked_labels. rewrite in_flat_map. split.
  - intros [r [Hr Hx]]. apply in_range in Hr. exists r.
    destruct (marked data [c_cedil] r defect_col); [|destruct Hx].
    destruct (label data r) as [y|]; [|destruct Hx].
    destruct Hx as [<-|[]]. auto.
  - intros [r [Hr [Hm Hl]]]. exists r.
    split; [apply in_range; lia|]. rewrite Hm, Hl. left; reflexivity.
Qed.

Lemma label_trimmed (data : DataFrame) (r : nat) (x : str) :
  label data r = Some x -> strip x = x /\ x <> [].
Proof.
  unfold label. destruct (cell_at data r 75) as [s|]; [|discriminate].
  destruct (truthy (strip s)) eqn:Et; [|discriminate].
  intros H; injection H as <-.
  split; [apply strip_idem|apply truthy_nonempty; assumption].
Qed.

Lemma first_occurrences_nil (l : list str) :
  first_occurrences l = [] <-> l = [].
Proof.
  split; [|intros ->; reflexivity].
  intros H. destruct l as [|x t]; [reflexivity|].
  assert (Hx : In x (first_occurrences (x :: t))).
  { rewrite <- dedup_first_occurrences. apply dedup_In.
    left; reflexivity. }
  rewrite H in Hx. destruct Hx.
Qed.

(** On a grid that has row 13 (or fewer than 76 columns),
    [get_sous_ensembles] returns; it returns the empty list exactly when
    no row 3-14 has both the marker in the defect column and a label that
    is not empty, and the cell (13, 75) is absent; and every name it
    returns is trimmed. *)
Theorem sous_ensembles_empty_iff (data : DataFrame) (defect_col : nat) :
  13 < len data \/ n_columns data <= 75 ->
  exists l,
    get_sous_ensembles data defect_col = Ok l
    /\ (l = [] <->
        marked_labels data defect_col = [] /\ cell_at data 13 75 = None)
    /\ forall x, In x l -> strip x = x.
Proof.
  intros H. exists (resolved_sous_ensembles data defect_col).
  split; [apply get_sous_ensembles_spec; assumption|].
  unfold resolved_sous_ensembles.
  destruct (first_occurrences (marked_labels data defect_col))
    as [|y t] eqn:E.
  - apply (proj1 (first_occurrences_nil _)) in E. rewrite E. split.
    + destruct (cell_at data 13 75); simpl.
      * split; [discriminate|intros [_ Hn]; discriminate].
      * tauto.
    + intros x Hx. destruct (cell_at data 13 75) as [s|]; simpl in Hx.
      * destruct Hx as [<-|[]]. apply strip_idem.
      * destruct Hx.
  - split.
    + split; [discriminate|]. intros [Hn _]. rewrite Hn in E.
      discriminate.
    + intros x Hx.
      assert (Hx' : In x (marked_labels data defect_col)).
      { apply dedup_In. rewrite dedup_first_occurrences, E. exact Hx. }
      apply marked_labels_In in Hx'. destruct Hx' as [r [_ [_ Hl]]].
      apply (label_trimmed _ _ Hl).
Qed.

Lemma sous_ensembles_empty_iff_witness :
  exists l,
    get_sous_ensembles grid_housing 10 = Ok l
    /\ (l = [] <->
        marked_labels grid_housing 10 = []
        /\ cell_at grid_housing 13 75 = None)
    /\ forall x, In x l -> strip x = x.
Proof.
  apply (sous_ensembles_empty_iff grid_housing 10).
  left. vm_compute. lia.
Defined.

(** The row scan of [get_composants] and [get_parametres] up to a row
    that carries the name. *)
Lemma find_sub_row_upto (data : DataFrame) (name : str) (r : nat) :
  r < len data -> label_is data name r = true ->
  forall n a,
    a <= r < a + n ->
    exists r',
      a <= r' <= r
      /\ find_sub_row data name (seq a n) = Ok (Some r')
      /\ label_is data name r' = true.
Proof.
  intros Hlen Hl. induction n as [|n IH]; intros a Ha; [lia|].
  cbn [seq find_sub_row].
  rewrite iloc_if_col_ok by (left; lia). cbn [bind].
  destruct (label_is data name a) eqn:E.
  - exists a. split; [lia|]. split; [|exact E].
    unfold label_is in E. destruct (cell_at data a 75) as [s|];
      [|discriminate].
    cbn [notna py_str andb]. rewrite E. reflexivity.
  - assert (a <> r) by (intros ->; congruence).
    destruct (IH (S a)) as [r' [Hr' [Hfind Hl']]]; [lia|].
    exists r'. split; [lia|]. split; [|exact Hl'].
    unfold label_is in E. destruct (cell_at data a 75) as [s|];
      cbn [notna py_str andb]; [rewrite E|]; exact Hfind.
Qed.

(** A label of the rows 3-13 is a name that [get_composants] and
    [get_parametres] find a row for: their row scan returns a row at or
    before it with the same trimmed label, without raising, however
    short the grid is below that row.  This covers the names the marker
    loop of [get_sous_ensembles] takes from the rows 3-13 and the
    fallback name of row 13. *)
Theorem labelled_row_is_found (data : DataFrame) (r : nat) (s : str) :
  3 <= r < 14 ->
  cell_at data r 75 = Some s ->
  exists r' s',
    3 <= r' <= r
    /\ find_sub_row data (strip s) (range 3 14) = Ok (Some r')
    /\ cell_at data r' 75 = Some s' /\ strip s' = strip s.
Proof.
  intros Hr Hs. pose proof (cell_at_Some _ _ _ Hs) as [Hlen _].
  assert (Hl : label_is data (strip s) r = true)
    by (unfold label_is; rewrite Hs; apply eqb_refl).
  destruct (@find_sub_row_upto data (strip s) r Hlen Hl 11 3)
    as [r' [Hr' [Hfind Hl']]]; [lia|].
  unfold label_is in Hl'.
  destruct (cell_at data r' 75) as [s'|] eqn:Es'; [|discriminate].
  apply eqb_eq in Hl'. exists r', s'.
  split; [lia|]. split; [exact Hfind|]. split; [exact Es'|exact Hl'].
Qed.

Lemma labelled_row_is_found_witness :
  exists r' s',
    3 <= r' <= 13
    /\ find_sub_row grid_fourteen_rows (strip (u"Frame")) (range 3 14)
       = Ok (Some r')
    /\ cell_at grid_fourteen_rows r' 75 = Some s'
    /\ strip s' = strip (u"Frame").
Proof.
  apply (@labelled_row_is_found grid_fourteen_rows 13 (u"Frame")).
  - lia.
  - vm_compute; reflexivity.
Defined.

(** ** Substrings *)

Lemma starts_with_spec (pat text : str) :
  starts_with pat text = true <-> exists post, text = pat ++ post.
Proof.
  revert text; induction pat as [|c p IH]; intros text; simpl.
  - split; [intros _; exists text; reflexivity|reflexivity].
  - destruct text as [|d t].
    + split; [discriminate|intros [post H]; discriminate].
    + rewrite andb_true_iff, N.eqb_eq, IH. split.
      * intros [-> [post ->]]. exists post; reflexivity.
      * intros [post H]. injection H as -> ->.
        split; [reflexivity|exists post; reflexivity].
Qed.

(** [pat in text]: the pattern is a run of consecutive characters of the
    text. *)
Lemma contains_spec (pat text : str) :
  contains pat text = true <-> exists pre post, text = pre ++ pat ++ post.
Proof.
  induction text as [|d t IH]; simpl.
  - rewrite orb_false_r, starts_with_spec. split.
    + intros [post H]. exists [], post. exact H.
    + intros [pre [post H]]. destruct pre; [|discriminate].
      exists post. exact H.
  - rewrite orb_true_iff, starts_with_spec, IH. split.
    + intros [[post H]|[pre [post H]]].
      * exists [], post. exact H.
      * exists (d :: pre), post. rewrite H. reflexivity.
    + intros [pre [post H]]. destruct pre as [|x pre].
      * left. exists post. exact H.
      * right. injection H as _ H. exists pre, post. exact H.
Qed.




(** ** From the list of the defects to the analysis *)






(** ** The keyword search *)

Lemma sorted_filter_fst {B : Type} (f : nat * B -> bool)
  (l : list (nat * B)) :
  StronglySorted lt (map fst l) ->
  StronglySorted lt (map fst (filter f l)).
Proof.
  induction l as [|x l IH]; simpl; intros H.
  - constructor.
  - inversion H as [|? ? Hs Hall]; subst. destruct (f x); simpl.
    + constructor; [apply IH; assumption|].
      apply Forall_forall. intros y Hy. apply in_map_iff in Hy.
      destruct Hy as [z [<- Hz]]. apply filter_In in Hz.
      destruct Hz as [Hz _].
      apply (proj1 (Forall_forall _ _) Hall). apply in_map. exact Hz.
    + apply IH; assumption.
Qed.

Lemma list_all_defects_sorted (data : DataFrame) :
  StronglySorted lt (map fst (list_all_defects data)).
Proof.
  unfold list_all_defects.
  destruct (len data <=? 15); [constructor|].
  cbv zeta. rewrite filter_twice, map_map. cbn [fst]. unfold range.
  apply sorted_filter_combine.
Qed.

(** The matches of the keyword search are listed defects, in strictly
    increasing column order: exactly the listed defects whose lower-cased
    name holds the lower-cased keyword as a run of consecutive
    characters. *)
Theorem keyword_matches_are_listed_defects
  (lower : str -> str) (data : DataFrame) (keyword : str) :
  StronglySorted lt (map fst (keyword_matches lower data keyword))
  /\ forall col nm,
       In (col, nm) (keyword_matches lower data keyword) <->
       In (col, nm) (list_all_defects data)
       /\ exists pre post, lower nm = pre ++ lower keyword ++ post.
Proof.
  unfold keyword_matches. split.
  - apply sorted_filter_fst. apply list_all_defects_sorted.
  - intros col nm. rewrite filter_In. cbn [snd].
    rewrite contains_spec. reflexivity.
Qed.

(** ** The sizes of the results *)

Lemma for_each_length {A B : Type}
  (body : list B -> A -> result (list B)) (xs : list A)
  (acc res : list B) :
  for_each xs body acc = Ok res ->
  (forall acc x acc', body acc x = Ok acc' ->
                      length acc' <= S (length acc)) ->
  length res <= length acc + length xs.
Proof.
  intros H Hb. revert acc H.
  induction xs as [|x xs IH]; intros acc H; simpl in *.
  - injection H as <-. lia.
  - apply bind_Ok in H. destruct H as [acc' [H1 H2]].
    apply Hb in H1. apply IH in H2. lia.
Qed.

Lemma for_each_inv {A S : Type} (P : S -> Prop)
  (body : S -> A -> result S) (xs : list A) (s res : S) :
  for_each xs body s = Ok res ->
  P s ->
  (forall s x s', P s -> body s x = Ok s' -> P s') ->
  P res.
Proof.
  intros H Hs Hb. revert s H Hs.
  induction xs as [|x xs IH]; intros s H Hs; simpl in *.
  - injection H as <-. exact Hs.
  - apply bind_Ok in H. destruct H as [s' [H1 H2]].
    apply (IH s'); [assumption|apply (Hb s x); assumption].
Qed.

Ltac body_cases :=
  repeat match goal with
         | |- context [bind ?m _] => destruct m; cbn [bind]
         | |- context [if ?b then _ else _] => destruct b
         end;
  intros H; try discriminate; injection H as <-;
  rewrite ?length_app; simpl; lia.

Lemma sous_ensembles_body_length (data : DataFrame) (defect_col : nat)
  (acc : list str) (r : nat) (acc' : list str) :
  sous_ensembles_body data defect_col acc r = Ok acc' ->
  length acc' <= S (length acc).
Proof. unfold sous_ensembles_body. body_cases. Qed.

Lemma composants_body_length (data : DataFrame) (r : nat)
  (acc : list str) (col : nat) (acc' : list str) :
  composants_body data r acc col = Ok acc' ->
  length acc' <= S (length acc).
Proof. unfold composants_body. body_cases. Qed.

Lemma component_cols_body_length (data : DataFrame) (r : nat)
  (acc : list nat) (col : nat) (acc' : list nat) :
  component_cols_body data r acc col = Ok acc' ->
  length acc' <= S (length acc).
Proof. unfold component_cols_body. body_cases. Qed.

Lemma linked_body_length (data : DataFrame) (row : nat)
  (acc : list str) (col : nat) (acc' : list str) :
  linked_body data row acc col = Ok acc' ->
  length acc' <= S (length acc).
Proof. unfold linked_body. body_cases. Qed.

(** One parameter row adds at most one parameter, whose linked
    components are at most as many as the component columns. *)
Lemma parametres_body_step (data : DataFrame) (cols : list nat)
  (acc : list Parametre) (row : nat) (acc' : list Parametre) :
  parametres_body data cols acc row = Ok acc' ->
  acc' = acc
  \/ exists p, acc' = acc ++ [p] /\ length (components p) <= length cols.
Proof.
  unfold parametres_body. intros H.
  apply bind_Ok in H. destruct H as [name [_ H]].
  apply bind_Ok in H. destruct H as [value [_ H]].
  destruct (notna name); [|injection H as <-; left; reflexivity].
  apply bind_Ok in H. destruct H as [linked [Hl H]].
  apply for_each_length in Hl; [|apply linked_body_length].
  simpl in Hl.
  match type of H with
  | (if ?b then _ else _) = _ => destruct b
  end; injection H as <-; [right|left; reflexivity].
  eexists. split; [reflexivity|exact Hl].
Qed.

(** Whatever the grid, a result of [get_sous_ensembles] has at most 12
    names, a result of [get_composants] at most 74 components, and a
    result of [get_parametres] at most one parameter for each row from
    17 on, each with at most 74 linked components. *)
Theorem resolver_results_are_bounded (data : DataFrame) :
  (forall col l, get_sous_ensembles data col = Ok l -> length l <= 12)
  /\ (forall name cs, get_composants data name = Ok cs ->
                      length cs <= 74)
  /\ (forall name ps,
         get_parametres data name = Ok ps ->
         length ps <= len data - 17
         /\ forall p, In p ps -> length (components p) <= 74).
Proof.
  split; [|split].
  - intros col l H. unfold get_sous_ensembles in H.
    apply bind_Ok in H. destruct H as [l0 [Hloop H]].
    apply for_each_length in Hloop;
      [|apply sous_ensembles_body_length].
    simpl in Hloop. destruct l0 as [|x t].
    + apply bind_Ok in H. destruct H as [sub_name [_ H]].
      destruct (notna sub_name); injection H as <-; simpl; lia.
    + injection H as <-. exact Hloop.
  - intros name cs H. unfold get_composants in H.
    apply bind_Ok in H. destruct H as [[r|] [_ H]].
    + apply for_each_length in H; [|apply composants_body_length].
      simpl in H. exact H.
    + injection H as <-. simpl; lia.
  - intros name ps H. unfold get_parametres in H.
    destruct (negb (truthy name));
      [injection H as <-; split; [simpl; lia|intros p []]|].
    apply bind_Ok in H. destruct H as [[r|] [_ H]];
      [|injection H as <-; split; [simpl; lia|intros p []]].
    apply bind_Ok in H. destruct H as [cols [Hcols H]].
    apply for_each_length in Hcols;
      [|apply component_cols_body_length].
    simpl in Hcols. split.
    + apply for_each_length in H.
      * unfold range in H. rewrite length_seq in H. simpl in H. exact H.
      * intros acc x acc' Hb. apply parametres_body_step in Hb.
        destruct Hb as [->|[p [-> _]]]; [lia|].
        rewrite length_app. simpl. lia.
    + pose proof (@for_each_inv nat (list Parametre)
                    (fun ps => forall p, In p ps ->
                                         length (components p) <= 74)
                    _ _ _ _ H) as Hinv.
      apply Hinv; [intros p []|].
      intros s x s' Hs Hb. apply parametres_body_step in Hb.
      destruct Hb as [->|[p [-> Hp]]]; [exact Hs|].
      intros q Hq. apply in_app_or in Hq.
      destruct Hq as [Hq|[<-|[]]]; [apply Hs; exact Hq|lia].
Qed.

(** ** The colour of a cell *)

Lemma xl_find_row_found (b : Book) (row_name : str) (r : nat) :
  forall n a,
    xl_find_row b row_name (seq a n) = Some (Some r) ->
    a <= r < a + n
    /\ (exists v, sheet_cell b r 75 = Some (XL_CELL_TEXT v)
                  /\ strip v = row_name)
    /\ forall r0, a <= r0 < r ->
         exists c0, sheet_cell b r0 75 = Some c0
                    /\ forall v0, c0 = XL_CELL_TEXT v0 ->
                                  strip v0 <> row_name.
Proof.
  induction n as [|n IH]; intros a H; [discriminate|].
  cbn [seq xl_find_row] in H.
  destruct (sheet_cell b a 75) as [[v|]|] eqn:Ec; [| |discriminate].
  - destruct (eqb (strip v) row_name) eqn:E.
    + injection H as <-. apply eqb_eq in E.
      split; [lia|]. split; [exists v; auto|]. intros r0 Hr0. lia.
    + apply IH in H. destruct H as [Hr [Hv Hbefore]].
      split; [lia|]. split; [exact Hv|]. intros r0 Hr0.
      destruct (Nat.eq_dec r0 a) as [->|Hne].
      * exists (XL_CELL_TEXT v). split; [exact Ec|].
        intros v0 Hv0. injection Hv0 as <-. apply eqb_neq. exact E.
      * apply Hbefore. lia.
  - apply IH in H. destruct H as [Hr [Hv Hbefore]].
    split; [lia|]. split; [exact Hv|]. intros r0 Hr0.
    destruct (Nat.eq_dec r0 a) as [->|Hne].
    + exists XL_CELL_OTHER. split; [exact Ec|]. intros v0 Hv0.
      discriminate.
    + apply Hbefore. lia.
Qed.

(** [get_cell_color] gives a colour index only with a workbook whose
    sheet holds, in the rows 3-14 of column 75, a text cell that trims to
    the name; the index is then the pattern colour of the XF record of
    the cell at the first such row and the column asked for.  In every
    other case (no workbook, a cell that cannot be read, no such row, no
    XF record) it gives [None]. *)
Theorem known_colour_comes_from_the_label_row
  (book : option Book) (row_name : str) (col : nat) (z : Z) :
  get_cell_color book row_name col = Some z ->
  exists b r v i,
    book = Some b
    /\ 3 <= r < 15
    /\ sheet_cell b r 75 = Some (XL_CELL_TEXT v) /\ strip v = row_name
    /\ (forall r0, 3 <= r0 < r ->
          exists c0, sheet_cell b r0 75 = Some c0
                     /\ forall v0, c0 = XL_CELL_TEXT v0 ->
                                   strip v0 <> row_name)
    /\ cell_xf_index b r col = Some i
    /\ nth_error (xf_list b) i = Some z.
Proof.
  unfold get_cell_color. destruct book as [b|]; [|discriminate].
  destruct (xl_find_row b row_name (range 3 15)) as [[r|]|] eqn:E;
    [| discriminate | discriminate].
  destruct (cell_xf_index b r col) as [i|] eqn:Ei; [|discriminate].
  intros Hz. unfold range in E. apply xl_find_row_found in E.
  destruct E as [Hr [[v [Hv Hn]] Hbefore]].
  exists b, r, v, i. repeat split; try assumption; lia.
Qed.

Lemma known_colour_comes_from_the_label_row_witness :
  exists b r v i,
    Some (book_housing [40; 80]) = Some b
    /\ 3 <= r < 15
    /\ sheet_cell b r 75 = Some (XL_CELL_TEXT v) /\ strip v = u"Housing"
    /\ (forall r0, 3 <= r0 < r ->
          exists c0, sheet_cell b r0 75 = Some c0
                     /\ forall v0, c0 = XL_CELL_TEXT v0 ->
                                   strip v0 <> u"Housing")
    /\ cell_xf_index b r 80 = Some i
    /\ nth_error (xf_list b) i = Some 13%Z.
Proof.
  apply (@known_colour_comes_from_the_label_row
           (Some (book_housing [40; 80])) (u"Housing") 80 13%Z).
  vm_compute; reflexivity.
Defined.
